(** * Credential lifecycle of the quiz backend

    A shallow embedding of the password policy, the account record and its
    lockout counters, the registration / login / password-change / deletion
    handlers, the bearer-token middleware and the route guards, and the
    answer grading of [src/index.js], together with the admin login of
    [src/routes.js] and [src/models/admin.js], and the properties they have.

    Conventions of the embedding.
    - A JavaScript string is a [string]: each [ascii] stands for one UTF-16
      code unit below 256.  On that range [String.prototype.toLowerCase] works
      code unit by code unit.  Module [Utf16] embeds the password policy once
      more on code units given as numbers, with the Final_Sigma rule of
      [toLowerCase]; the two embeddings agree below 256
      ([validatePassword_widen]).
    - [Date.now()] is an explicit argument [now : Z] (milliseconds); a
      request reads one clock value.
    - The [users] collection is a finite map from the unique [username] to the
      stored document; the [questions], [scores] and [admins] collections,
      which have no unique key, are lists in insertion order.
    - [bcryptjs] and [jsonwebtoken] are external libraries: they appear as the
      interfaces [Bcrypt] and [Jwt].
    - A field of a request body is absent or a string; the [answers] field
      of a submission is any JSON value ([answersField]).
    - The [console.log] / [setTimeout] trace of [validatePassword] is not
      modelled, and neither are the [catch] branches taken when the store or
      a library call fails for a reason outside the request (the two
      request-driven ones of the submit handler are). *)

From Stdlib Require Import Ascii ZArith Lia Bool.
From Stdlib Require String DecimalString.
From stdpp Require Import gmap strings list.

Local Open Scope Z_scope.

(** ** JavaScript strings *)

Module JsString.

Definition code (c : ascii) : nat := nat_of_ascii c.

Definition in_range (lo hi : nat) (c : ascii) : bool :=
  (lo <=? code c)%nat && (code c <=? hi)%nat.

(** The character classes of the regular expressions of [validatePassword]. *)
Definition isDigit (c : ascii) : bool := in_range 48 57 c.      (* [0-9] *)
Definition isUpper (c : ascii) : bool := in_range 65 90 c.      (* [A-Z] *)
Definition isLower (c : ascii) : bool := in_range 97 122 c.     (* [a-z] *)

(** The special-character class of the fifth pattern, in source order;
    the double quote is written by its code, 34. *)
Definition specialChars : list ascii :=
  [ "!"; "@"; "#"; "$"; "%"; "^"; "&"; "*"; "("; ")"; ","; "."; "?";
    "034"; ":"; "{"; "}"; "|"; "<"; ">" ]%char.

Definition isSpecial (c : ascii) : bool :=
  existsb (Ascii.eqb c) specialChars.

Definition chars (s : string) : list ascii := String.list_ascii_of_string s.

(** [/[cls]/.test(s)] for a one-class pattern: some code unit is in the class. *)
Definition test (cls : ascii -> bool) (s : string) : bool :=
  existsb cls (chars s).

(** [toLowerCase] on one code unit below 256: A-Z, and the Latin-1 capitals
    U+00C0..U+00DE except the multiplication sign U+00D7, move up by 32. *)
Definition lowerChar (c : ascii) : ascii :=
  if isUpper c || (in_range 192 222 c && negb (code c =? 215)%nat)
  then ascii_of_nat (code c + 32) else c.

Fixpoint toLowerCase (s : string) : string :=
  match s with
  | EmptyString => EmptyString
  | String c s' => String (lowerChar c) (toLowerCase s')
  end.

(** [s.startsWith(t)] *)
Fixpoint startsWith (s t : string) {struct t} : bool :=
  match t, s with
  | EmptyString, _ => true
  | String _ _, EmptyString => false
  | String b t', String a s' => Ascii.eqb a b && startsWith s' t'
  end.

(** [s.includes(t)]: [t] occurs in [s] at some position. *)
Fixpoint includes (s t : string) : bool :=
  startsWith s t ||
  match s with
  | EmptyString => false
  | String _ s' => includes s' t
  end.

(** A JavaScript string is falsy exactly when it is empty. *)
Definition truthy (s : string) : bool :=
  match s with EmptyString => false | _ => true end.

(** [arr.join(sep)] *)
Definition join (sep : string) (l : list string) : string :=
  String.concat sep l.

End JsString.

(** ** External libraries *)

(** [bcryptjs]: [bcrypt_compare p h] is [bcrypt.compare(p, h)] (and
    [compareSync]); [bcrypt_hash p rounds salt] is [bcrypt.hash(p, rounds)],
    with the salt the library draws made an argument. *)
Class Bcrypt := {
  bcrypt_compare : string -> string -> bool;
  bcrypt_hash : string -> nat -> string -> string
}.

(** ** Password policy *)

Module Policy.
Import JsString.

Definition msgLength : string := "Password must be 8-12 characters long.".
Definition msgDigit : string := "Password must contain at least one number.".
Definition msgUpper : string :=
  "Password must contain at least one uppercase letter.".
Definition msgLower : string :=
  "Password must contain at least one lowercase letter.".
Definition msgSpecial : string :=
  "Password must contain at least one special character.".
Definition msgUsername : string := "Password must not contain the username.".
Definition msgReuse : string := "Password must not have been used before.".

(** [errors.push(x)] *)
Definition push (errors : list string) (x : string) : list string :=
  errors ++ [x].

Section Validate.
Context `{Bcrypt}.

Definition validatePassword
    (password username : string) (previousPasswords : list string)
    : list string :=
  let errors := [] in
  let errors :=
    if (String.length password <? 8)%nat || (12 <? String.length password)%nat
    then push errors msgLength else errors in
  let errors :=
    if negb (test isDigit password) then push errors msgDigit else errors in
  let errors :=
    if negb (test isUpper password) then push errors msgUpper else errors in
  let errors :=
    if negb (test isLower password) then push errors msgLower else errors in
  let errors :=
    if negb (test isSpecial password) then push errors msgSpecial else errors in
  let errors :=
    if includes (toLowerCase password) (toLowerCase username)
    then push errors msgUsername else errors in
  let errors :=
    if existsb (fun hash => bcrypt_compare password hash) previousPasswords
    then push errors msgReuse else errors in
  errors.

End Validate.
End Policy.

(** ** Account records and the users collection *)

(** [userSchema]: the stored document.  [lastFailedLogin] is a nullable date,
    kept as its millisecond timestamp. *)
Module User.
Record t := mk {
  username : string;
  password : string;
  historyPasswords : list string;
  failedLoginAttempts : Z;
  lastFailedLogin : option Z
}.
End User.

(** [new User({ username, password })]: the schema defaults fill the rest. *)
Definition newUser (username hashedPassword : string) : User.t :=
  User.mk username hashedPassword [] 0 None.

(** Assignment to the two lockout fields of a document. *)
Definition setLockout (user : User.t) (attempts : Z) (last : option Z) : User.t :=
  User.mk (User.username user) (User.password user)
          (User.historyPasswords user) attempts last.

(** [user.historyPasswords.push(user.password); user.password = hashed]. *)
Definition rotatePassword (user : User.t) (hashedPassword : string) : User.t :=
  User.mk (User.username user) hashedPassword
          (User.historyPasswords user ++ [User.password user])
          (User.failedLoginAttempts user) (User.lastFailedLogin user).

(** [new Date(d).getTime()]: [new Date(null)] is the epoch. *)
Definition getTime (d : option Z) : Z :=
  match d with Some t => t | None => 0 end.

(** ** HTTP responses *)

Inductive body :=
| ErrorObj (error : string)       (* { error: ... } *)
| MessageObj (message : string)   (* { message: ... } *)
| TokenObj (token : string)       (* { token } *)
| Text (text : string).           (* a plain string *)

Record response := mkResponse { status : Z; content : body }.

(** [res.sendStatus(code)] sends the status text as the body. *)
Definition sendStatus (code : Z) : response :=
  mkResponse code
    (Text (if code =? 401 then "Unauthorized"
           else if code =? 403 then "Forbidden" else "")).

(** ** Token payloads *)

(** The JSON values a token payload can hold under a key. *)
Inductive jsval :=
| JNull
| JBool (b : bool)
| JNum (n : Z)
| JStr (s : string).

(** [v !== s] for a property read [v] (absent = [undefined]) and a string
    literal [s]: strict inequality holds unless [v] is that very string. *)
Definition strictNeqStr (v : option jsval) (s : string) : bool :=
  match v with
  | Some (JStr t) => negb (String.eqb t s)
  | _ => true
  end.

(** [jsonwebtoken]: [jwt_sign payload secret expiresIn now] is
    [jwt.sign(payload, secret, { expiresIn })] issued at clock [now], with
    [expiresIn] in seconds; [jwt_verify token secret now] is the decoded
    payload handed to the callback of [jwt.verify], or [None] when the
    callback receives an error. *)
Class Jwt := {
  jwt_sign : gmap string jsval -> string -> Z -> Z -> string;
  jwt_verify : string -> string -> Z -> option (gmap string jsval)
}.

(** What the admin gate relies on from [jsonwebtoken]: verifying a token that
    was signed with the same secret yields the [role] claim that was signed
    (the library adds [iat] and [exp], nothing else). *)
Definition JwtContract `{Jwt} : Prop :=
  forall p s e t t' c,
    jwt_verify (jwt_sign p s e t) s t' = Some c ->
    c !! "role" = p !! "role".

(** ** Route handlers *)

Section Handlers.
Context `{Bcrypt} `{Jwt}.
Variable jwtSecret : string.

Definition requiredFields : response :=
  mkResponse 400 (ErrorObj "Username and password are required").

Definition invalidCredentials : response :=
  mkResponse 401 (ErrorObj "Invalid credentials").

Definition lockedOut : response :=
  mkResponse 403
    (ErrorObj "Too many failed login attempts. Please try again later in 60 seconds.").

(** [!x] for an optional string field of the request body. *)
Definition missing (x : option string) : bool :=
  match x with
  | Some s => negb (JsString.truthy s)
  | None => true
  end.

(** [app.post('/api/users/register')] *)
Definition register (db : gmap string User.t)
    (username password : option string) (salt : string)
    : gmap string User.t * response :=
  match username, password with
  | Some username, Some password =>
    if missing (Some username) || missing (Some password)
    then (db, requiredFields)
    else
      match db !! username with
      | Some existingUser => (db, mkResponse 400 (ErrorObj "User already exists"))
      | None =>
        let passwordErrors := Policy.validatePassword password username [] in
        if (0 <? length passwordErrors)%nat
        then (db, mkResponse 400 (ErrorObj (JsString.join " " passwordErrors)))
        else
          let hashedPassword := bcrypt_hash password 10 salt in
          (<[username := newUser username hashedPassword]> db,
           mkResponse 201 (Text "User registered successfully"))
      end
  | _, _ => (db, requiredFields)
  end.

Definition lockoutTime : Z := 1 * 60 * 1000.

(** Lines 174-187 of the login handler: [None] is the early 403, [Some user']
    the document the handler goes on with. *)
Definition lockoutCheck (user : User.t) (now : Z) : option User.t :=
  if 3 <=? User.failedLoginAttempts user then
    let timeSinceLastFailed := now - getTime (User.lastFailedLogin user) in
    if timeSinceLastFailed <? lockoutTime then None
    else Some (setLockout user 0 None)
  else Some user.

(** [app.post('/api/users/login')] *)
Definition login (db : gmap string User.t)
    (username password : option string) (now : Z)
    : gmap string User.t * response :=
  match username, password with
  | Some username, Some password =>
    if missing (Some username) || missing (Some password)
    then (db, requiredFields)
    else
      match db !! username with
      | None => (db, invalidCredentials)
      | Some user =>
        if negb (bcrypt_compare password (User.password user))
        then (db, invalidCredentials)
        else
          match lockoutCheck user now with
          | None => (db, lockedOut)
          | Some user =>
            let isPasswordCorrect :=
              bcrypt_compare password (User.password user) in
            if negb isPasswordCorrect then
              let user :=
                setLockout user (User.failedLoginAttempts user + 1) (Some now) in
              (<[username := user]> db, invalidCredentials)
            else
              let user := setLockout user 0 None in
              let token :=
                jwt_sign {[ "username" := JStr (User.username user) ]}
                         jwtSecret 3600 now in
              (<[username := user]> db, mkResponse 200 (TokenObj token))
          end
      end
  | _, _ => (db, requiredFields)
  end.

(** [app.patch('/api/users/:username')], after [authenticateToken]. *)
Definition updateUser (db : gmap string User.t)
    (username : string) (password : option string) (salt : string)
    : gmap string User.t * response :=
  match db !! username with
  | None => (db, mkResponse 404 (ErrorObj "User not found."))
  | Some user =>
    match password with
    | Some password =>
      if JsString.truthy password then
        let passwordErrors :=
          Policy.validatePassword password username
                                  (User.historyPasswords user) in
        if (0 <? length passwordErrors)%nat
        then (db, mkResponse 400 (ErrorObj (JsString.join " " passwordErrors)))
        else
          let hashedPassword := bcrypt_hash password 10 salt in
          (<[username := rotatePassword user hashedPassword]> db,
           mkResponse 200 (MessageObj "User updated successfully"))
      else (db, mkResponse 200 (MessageObj "User updated successfully"))
    | None => (db, mkResponse 200 (MessageObj "User updated successfully"))
    end
  end.

(** [app.delete('/api/users/:username')], after [authenticateToken]. *)
Definition deleteUser (db : gmap string User.t) (username : string)
    : gmap string User.t * response :=
  match db !! username with
  | None => (db, mkResponse 404 (ErrorObj "User not found"))
  | Some _ =>
    (delete username db, mkResponse 200 (MessageObj "User deleted successfully"))
  end.

End Handlers.

(** ** Middleware *)

(** [split sep s] is [s.split(sep)] for a one-character separator. *)
Fixpoint split (sep : ascii) (s : string) : list string :=
  match s with
  | EmptyString => [EmptyString]
  | String c s' =>
    if Ascii.eqb c sep then EmptyString :: split sep s'
    else
      match split sep s' with
      | w :: ws => String c w :: ws
      | [] => [String c EmptyString]
      end
  end.

(** The parts of [req] the middleware reads and writes: the [authorization]
    header and [req.user]. *)
Record Request := mkRequest {
  authorization : option string;
  user : option (gmap string jsval)
}.

Inductive outcome :=
| Next (req : Request)        (* next() *)
| Reply (res : response).     (* a response was sent *)

Definition Middleware : Type := Request -> Z -> outcome.

(** [authHeader && authHeader.split(' ')[1]], with a falsy result as [None]. *)
Definition bearerToken (req : Request) : option string :=
  match authorization req with
  | Some authHeader =>
    if JsString.truthy authHeader then
      match split " " authHeader !! 1%nat with
      | Some token => if JsString.truthy token then Some token else None
      | None => None
      end
    else None
  | None => None
  end.

Section Middleware.
Context `{Jwt}.
Variable jwtSecret : string.

Definition authenticateToken : Middleware := fun req now =>
  match bearerToken req with
  | None => Reply (sendStatus 401)
  | Some token =>
    match jwt_verify token jwtSecret now with
    | None => Reply (sendStatus 403)
    | Some claims => Next (mkRequest (authorization req) (Some claims))
    end
  end.

(** Reading [req.user.role] when [req.user] is undefined throws; the error
    middleware at the end of the file answers 500. *)
Definition checkAdminRole : Middleware := fun req _ =>
  match user req with
  | None => Reply (mkResponse 500 (ErrorObj "Internal Server Error"))
  | Some claims =>
    if strictNeqStr (claims !! "role") "admin"
    then Reply (mkResponse 403 (ErrorObj "Forbidden"))
    else Next req
  end.

(** The middleware of a route run in order, up to the route's own handler. *)
Fixpoint runGuards (ms : list Middleware) (req : Request) (now : Z) : outcome :=
  match ms with
  | [] => Next req
  | m :: ms' =>
    match m req now with
    | Next req' => runGuards ms' req' now
    | Reply res => Reply res
    end
  end.

(** The routes of [src/index.js]. *)
Inductive route :=
| PostRegister | PostLogin | GetUser | PatchUser | DeleteUser
| PostQuestion | GetQuestions | PatchQuestion | DeleteQuestion
| PostScore | GetScores | PatchScore | DeleteScore
| PostSubmit.

Definition guards (r : route) : list Middleware :=
  match r with
  | PostRegister | PostLogin => []
  | PostQuestion | PatchQuestion | DeleteQuestion | DeleteScore =>
    [authenticateToken; checkAdminRole]
  | _ => [authenticateToken]
  end.

(** The privileged routes are those that mount [checkAdminRole]. *)
Definition privileged (r : route) : bool :=
  match r with
  | PostQuestion | PatchQuestion | DeleteQuestion | DeleteScore => true
  | _ => false
  end.

End Middleware.

(** ** Reachable collections *)

Section Reachable.
Context `{Bcrypt} `{Jwt}.
Variable jwtSecret : string.

(** One public operation on the users collection. *)
Inductive step (db : gmap string User.t) : gmap string User.t -> Prop :=
| step_register username password salt :
    step db (register db username password salt).1
| step_login username password now :
    step db (login jwtSecret db username password now).1
| step_updateUser username password salt :
    step db (updateUser db username password salt).1
| step_deleteUser username :
    step db (deleteUser db username).1.

(** The collections the server can hold, starting from the empty one. *)
Inductive reachable : gmap string User.t -> Prop :=
| reachable_empty : reachable ∅
| reachable_step db db' : reachable db -> step db db' -> reachable db'.

End Reachable.

(** ** The policy as the specification words it *)

Module PolicySpec.
Import JsString.

(** The seven rules of the validator's contract, in the order it lists them. *)
Inductive rule :=
| Length | Digit | Upper | Lower | Special | NoUsername | NoReuse.

Definition rules : list rule :=
  [Length; Digit; Upper; Lower; Special; NoUsername; NoReuse].

(** The violation description of a rule. *)
Definition message (r : rule) : string :=
  match r with
  | Length => Policy.msgLength
  | Digit => Policy.msgDigit
  | Upper => Policy.msgUpper
  | Lower => Policy.msgLower
  | Special => Policy.msgSpecial
  | NoUsername => Policy.msgUsername
  | NoReuse => Policy.msgReuse
  end.

(** [t] is a substring of [s]. *)
Definition occursIn (t s : string) : Prop :=
  exists pre post, s = pre +:+ t +:+ post.

(** The digits and the letters of the basic Latin alphabet. *)
Definition digits : list ascii := chars "0123456789".
Definition capitals : list ascii := chars "ABCDEFGHIJKLMNOPQRSTUVWXYZ".
Definition smalls : list ascii := chars "abcdefghijklmnopqrstuvwxyz".

(** [b] is the small form of the capital letter [a].  Below code unit 256
    the capital letters are A-Z and U+00C0..U+00DE without the
    multiplication sign U+00D7, and the small form of each sits 32 places
    after it. *)
Definition smallOf (a b : ascii) : Prop :=
  ((65 <= code a <= 90)%nat \/ (192 <= code a <= 214)%nat \/
   (216 <= code a <= 222)%nat) /\
  code b = (code a + 32)%nat.

(** Two code units are the same letter up to case. *)
Definition sameLetter (a b : ascii) : Prop :=
  a = b \/ smallOf a b \/ smallOf b a.

(** Two strings are equal up to the case of their letters. *)
Definition equalIgnoringCase (s t : string) : Prop :=
  Forall2 sameLetter (chars s) (chars t).

(** [t] occurs in [s] up to the case of its letters. *)
Definition containsIgnoringCase (s t : string) : Prop :=
  exists pre w post, s = pre +:+ w +:+ post /\ equalIgnoringCase w t.

Section Rules.
Context `{Bcrypt}.

(** What it means for a candidate to satisfy a rule. *)
Definition holds (r : rule) (candidate identity : string)
    (history : list string) : Prop :=
  match r with
  | Length => (8 <= String.length candidate <= 12)%nat
  | Digit => exists c, c ∈ chars candidate /\ c ∈ digits
  | Upper => exists c, c ∈ chars candidate /\ c ∈ capitals
  | Lower => exists c, c ∈ chars candidate /\ c ∈ smalls
  | Special => exists c, c ∈ chars candidate /\ c ∈ specialChars
  | NoUsername => ~ containsIgnoringCase candidate identity
  | NoReuse => forall hash, hash ∈ history -> bcrypt_compare candidate hash = false
  end.

(** The condition under which [validatePassword] pushes the message of a rule. *)
Definition flagged (r : rule) (password username : string)
    (previousPasswords : list string) : bool :=
  match r with
  | Length =>
    (String.length password <? 8)%nat || (12 <? String.length password)%nat
  | Digit => negb (test isDigit password)
  | Upper => negb (test isUpper password)
  | Lower => negb (test isLower password)
  | Special => negb (test isSpecial password)
  | NoUsername => includes (toLowerCase password) (toLowerCase username)
  | NoReuse =>
    existsb (fun hash => bcrypt_compare password hash) previousPasswords
  end.

End Rules.
End PolicySpec.

(** The 256 code units of the embedding, for checks by enumeration. *)
Definition allAscii : list ascii := ascii_of_nat <$> seq 0 256.

(** [smallOf] as a test. *)
Definition smallOfb (a b : ascii) : bool :=
  (((65 <=? JsString.code a) && (JsString.code a <=? 90))
   || ((192 <=? JsString.code a) && (JsString.code a <=? 214))
   || ((216 <=? JsString.code a) && (JsString.code a <=? 222)))%nat
  && (JsString.code b =? JsString.code a + 32)%nat.

(** ** Strings beyond code unit 255 *)

(** The embedding above keeps to code units below 256.  This module embeds
    [validatePassword] once more on sequences of UTF-16 code units given as
    numbers.  Everything but [toLowerCase] is the code unit arithmetic of the
    source and holds for any code unit; [toLowerCase] is modelled on the code
    units below 256 and the three Greek sigmas (capital U+03A3, small U+03C3,
    final U+03C2) and answers [None] elsewhere.  On the modelled code units
    the only rule beyond a one-to-one mapping is
    Final_Sigma of Unicode's SpecialCasing: a capital sigma becomes the final
    sigma when a cased letter precedes it and none follows, case-ignorable
    characters skipped on both sides. *)
Module Utf16.

Definition ustring : Type := list N.

Definition capitalSigma : N := 931.
Definition smallSigma : N := 963.
Definition finalSigma : N := 962.

Definition between (lo hi c : N) : bool := ((lo <=? c) && (c <=? hi))%N.

(** The code units on which [toLowerCase] is modelled. *)
Definition modelled (c : N) : bool :=
  ((c <? 256) || (c =? capitalSigma) || (c =? smallSigma) || (c =? finalSigma))%N.

(** The property Cased on the modelled code units: the letters of the two
    Latin blocks, the ordinal indicators, the micro sign, and the sigmas. *)
Definition cased (c : N) : bool :=
  between 65 90 c || between 97 122 c
  || (c =? 170)%N || (c =? 181)%N || (c =? 186)%N
  || between 192 214 c || between 216 246 c || between 248 255 c
  || (c =? capitalSigma)%N || (c =? smallSigma)%N || (c =? finalSigma)%N.

(** The property Case_Ignorable on the modelled code units: apostrophe, full
    stop, colon, circumflex, grave, diaeresis, soft hyphen, macron, acute,
    middle dot, cedilla. *)
Definition caseIgnorable (c : N) : bool :=
  existsb (N.eqb c) [39; 46; 58; 94; 96; 168; 173; 175; 180; 183; 184]%N.

(** The one-to-one lower-case mapping of a code unit other than the capital
    sigma. *)
Definition lowerUnit (c : N) : N :=
  if between 65 90 c || (between 192 222 c && negb (c =? 215)%N)
  then (c + 32)%N else c.

(** Whether the first code unit that is not case-ignorable is cased. *)
Fixpoint casedNext (s : ustring) : bool :=
  match s with
  | [] => false
  | c :: s' => if caseIgnorable c then casedNext s' else cased c
  end.

(** [before] holds the code units already passed, the nearest first. *)
Definition isFinalSigma (before after : ustring) : bool :=
  casedNext before && negb (casedNext after).

Fixpoint lowerFrom (before s : ustring) : ustring :=
  match s with
  | [] => []
  | c :: s' =>
    (if (c =? capitalSigma)%N
     then if isFinalSigma before s' then finalSigma else smallSigma
     else lowerUnit c)
    :: lowerFrom (c :: before) s'
  end.

(** [s.toLowerCase()], where it is modelled: [None] for a string that holds
    a code unit outside the modelled ones. *)
Definition toLowerCase (s : ustring) : option ustring :=
  if forallb modelled s then Some (lowerFrom [] s) else None.

Fixpoint startsWith (s t : ustring) {struct t} : bool :=
  match t, s with
  | [], _ => true
  | _ :: _, [] => false
  | b :: t', a :: s' => (a =? b)%N && startsWith s' t'
  end.

Fixpoint includes (s t : ustring) : bool :=
  startsWith s t ||
  match s with
  | [] => false
  | _ :: s' => includes s' t
  end.

Definition isDigit (c : N) : bool := between 48 57 c.
Definition isUpper (c : N) : bool := between 65 90 c.
Definition isLower (c : N) : bool := between 97 122 c.

(** The special-character class, by code unit, in source order. *)
Definition specialUnits : list N :=
  [33; 64; 35; 36; 37; 94; 38; 42; 40; 41; 44; 46; 63; 34; 58; 123; 125; 124;
   60; 62]%N.

Definition isSpecial (c : N) : bool := existsb (N.eqb c) specialUnits.

Definition test (cls : N -> bool) (s : ustring) : bool := existsb cls s.

Section Validate.
(** [bcrypt.compareSync] on a password given by its code units. *)
Variable compareSync : ustring -> string -> bool.

(** The validator; [None] when one of the two [toLowerCase] calls of line 97
    falls outside the modelled code units. *)
Definition validatePassword
    (password username : ustring) (previousPasswords : list string)
    : option (list string) :=
  let errors := [] in
  let errors :=
    if (length password <? 8)%nat || (12 <? length password)%nat
    then Policy.push errors Policy.msgLength else errors in
  let errors :=
    if negb (test isDigit password)
    then Policy.push errors Policy.msgDigit else errors in
  let errors :=
    if negb (test isUpper password)
    then Policy.push errors Policy.msgUpper else errors in
  let errors :=
    if negb (test isLower password)
    then Policy.push errors Policy.msgLower else errors in
  let errors :=
    if negb (test isSpecial password)
    then Policy.push errors Policy.msgSpecial else errors in
  match toLowerCase password, toLowerCase username with
  | Some lowerPassword, Some lowerUsername =>
    let errors :=
      if includes lowerPassword lowerUsername
      then Policy.push errors Policy.msgUsername else errors in
    let errors :=
      if existsb (fun hash => compareSync password hash) previousPasswords
      then Policy.push errors Policy.msgReuse else errors in
    Some errors
  | _, _ => None
  end.

End Validate.

(** A string of the narrow embedding as its code units. *)
Definition widen (s : string) : ustring := N_of_ascii <$> JsString.chars s.

(** The password AΣb1!Cdef and the username AΣ. *)
Definition sigmaPassword : ustring := [65; 931; 98; 49; 33; 67; 100; 101; 102]%N.
Definition sigmaUsername : ustring := [65; 931]%N.

End Utf16.

(** ** The lockout state as the specification words it *)

(** Locked: at least three failures, the last one less than 60 seconds ago. *)
Definition Locked (user : User.t) (now : Z) : Prop :=
  3 <= User.failedLoginAttempts user /\
  now - getTime (User.lastFailedLogin user) < 60 * 1000.

(** The invariant of the account record. *)
Definition countersConsistent (user : User.t) : Prop :=
  User.failedLoginAttempts user = 0 <-> User.lastFailedLogin user = None.

(** ** Small instances of the library interfaces

    Used to run the handlers on concrete requests. *)

(** An unsalted hasher: the digest is the plaintext behind a fixed prefix. *)
Definition toyBcrypt : Bcrypt := {|
  bcrypt_compare p h := String.eqb h ("$2a$" +:+ p);
  bcrypt_hash p _ _ := "$2a$" +:+ p
|}.

(** A token format that keeps the [role] claim when there is one and the
    [username] claim otherwise. *)
Definition toyJwt : Jwt := {|
  jwt_sign p _ _ _ :=
    match p !! "role" with
    | Some (JStr r) => "r." +:+ r
    | Some _ => "x"
    | None =>
      "n." +:+ match p !! "username" with Some (JStr u) => u | _ => "" end
    end;
  jwt_verify token _ _ :=
    match token with
    | String "r" (String "." r) => Some {[ "role" := JStr r ]}
    | String "n" (String "." u) => Some {[ "username" := JStr u ]}
    | _ => None
    end
|}.

Definition alice : User.t :=
  User.mk "alice" "$2a$Abc123!x" [] 0 None.

(** An account with three recorded failures, the last at time 1000. *)
Definition aliceLocked : User.t :=
  User.mk "alice" "$2a$Abc123!x" [] 3 (Some 1000).

(** A collection holding [alice] alone, and one holding [aliceLocked]. *)
Definition aliceDb : gmap string User.t := {[ "alice" := alice ]}.
Definition lockedDb : gmap string User.t := {[ "alice" := aliceLocked ]}.

(** Every stored document satisfies the invariant. *)
Definition storeConsistent (db : gmap string User.t) : Prop :=
  forall username user, db !! username = Some user -> countersConsistent user.

(** ** Answer grading: [app.post('/api/submit')] *)

(** [questionSchema] and [scoreSchema]; the [date] of a score defaults to
    [Date.now]. *)
Module Question.
Record t := mk {
  question : string;
  options : list string;
  correctAnswer : string
}.
End Question.

Module Score.
Record t := mk {
  username : string;
  score : Z;
  date : Z
}.
End Score.

(** [s === v] for a string [s] and an array read [v] (out of range =
    [undefined]): strict equality holds only for that very string. *)
Definition strictEqStr (s : string) (v : option jsval) : bool :=
  match v with
  | Some (JStr t) => String.eqb s t
  | _ => false
  end.


Inductive submitBody :=
| SubmitText (text : string)
| SubmitError (error : string)
| SubmitScore (message : string) (score : Z).

Record submitResponse := mkSubmit {
  submitStatus : Z;
  submitContent : submitBody
}.

Definition submitFailed : submitResponse :=
  mkSubmit 500 (SubmitError "An error occurred while submitting the answers").

(** The [answers] field of the request body, by the kind of JSON value it
    holds.  The items of an array and the values of an object are JSON scalars;
    an item that is itself an array or an object is, like [null], no string. *)
Inductive answersField :=
| AnswersUndefined                              (* the field is absent *)
| AnswersNull
| AnswersScalar                                 (* a boolean or a number *)
| AnswersString (s : string)
| AnswersArray (items : list jsval)
| AnswersObject (props : list (string * jsval)).

(** [o[key]] on a parsed JSON object: when a name is repeated the last value
    stands; an absent name reads [undefined]. *)
Definition lookupProp (props : list (string * jsval)) (key : string)
    : option jsval :=
  snd <$> List.find (fun kv => String.eqb kv.1 key) (rev props).

(** [answers.length]: reading it throws on [undefined] and [null] (the outer
    [None]); a boolean or a number has none. *)
Definition lengthOf (answers : answersField) : option (option jsval) :=
  match answers with
  | AnswersUndefined | AnswersNull => None
  | AnswersScalar => Some None
  | AnswersString s => Some (Some (JNum (Z.of_nat (String.length s))))
  | AnswersArray items => Some (Some (JNum (Z.of_nat (length items))))
  | AnswersObject props => Some (lookupProp props "length")
  end.

(** [n !== v] for a number [n] and a property read [v]. *)
Definition strictNeqNum (n : Z) (v : option jsval) : bool :=
  match v with
  | Some (JNum m) => negb (n =? m)
  | _ => true
  end.

(** [answers[i]]: a string yields the one-character string at [i], an object
    the property named by the decimal digits of [i]. *)
Definition answerAt (answers : answersField) (i : nat) : option jsval :=
  match answers with
  | AnswersString s =>
    (fun c => JStr (String c EmptyString)) <$> JsString.chars s !! i
  | AnswersArray items => items !! i
  | AnswersObject props =>
    lookupProp props (DecimalString.NilZero.string_of_uint (Nat.to_uint i))
  | _ => None
  end.

(** The counting loop of lines 400-405 over any indexable [answers]. *)
Definition gradeBy (questions : list Question.t)
    (answers : nat -> option jsval) : Z :=
  foldl
    (fun score i =>
       match questions !! i with
       | Some q =>
         if strictEqStr (Question.correctAnswer q) (answers i)
         then score + 1 else score
       | None => score
       end)
    0 (seq 0 (length questions)).

(** The handler after [authenticateToken], on the questions and scores
    collections.  Reading [answers.length] of an absent or null field throws,
    and so does saving a score whose required [username] is absent or empty:
    both end in the 500 of the [catch] clause. *)
Definition submit (questions : list Question.t) (scores : list Score.t)
    (username : option string) (answers : answersField) (now : Z)
    : list Score.t * submitResponse :=
  match lengthOf answers with
  | None => (scores, submitFailed)
  | Some answersLength =>
    if strictNeqNum (Z.of_nat (length questions)) answersLength then
      (scores,
       mkSubmit 400
         (SubmitText "Number of answers does not match number of questions"))
    else
      let score := gradeBy questions (answerAt answers) in
      match username with
      | Some username =>
        if JsString.truthy username then
          (scores ++ [Score.mk username score now],
           mkSubmit 201 (SubmitScore "Score submitted successfully" score))
        else (scores, submitFailed)
      | None => (scores, submitFailed)
      end
  end.



(** ** Admin login: [router.post('/admin/login')] of src/routes.js *)

(** [adminSchema] of src/models/admin.js, with the document id. *)
Module Admin.
Record t := mk {
  id : string;
  username : string;
  password : string
}.
End Admin.

(** [Admin.findOne({ username })]: the first document with that username
    (the schema does not make it unique). *)
Definition findAdmin (admins : list Admin.t) (username : string)
    : option Admin.t :=
  List.find (fun admin => String.eqb (Admin.username admin) username) admins.

Section AdminLogin.
Context `{Bcrypt} `{Jwt}.
Variable jwtSecret : string.

(** [admin.matchPassword(enteredPassword)] *)
Definition matchPassword (admin : Admin.t) (enteredPassword : string) : bool :=
  bcrypt_compare enteredPassword (Admin.password admin).

(** The handler on a body whose two fields are strings. *)
Definition adminLogin (admins : list Admin.t) (username password : string)
    (now : Z) : response :=
  match findAdmin admins username with
  | None => mkResponse 401 (MessageObj "Invalid credentials")
  | Some admin =>
    if negb (matchPassword admin password)
    then mkResponse 401 (MessageObj "Invalid credentials")
    else
      let token :=
        jwt_sign (<[ "id" := JStr (Admin.id admin) ]>
                    {[ "username" := JStr (Admin.username admin) ]})
                 jwtSecret 3600 now in
      mkResponse 200 (TokenObj token)
  end.

End AdminLogin.

(** ** Facts about stored accounts *)

(** The counters of a document are in their zero state. *)
Definition countersZero (user : User.t) : Prop :=
  User.failedLoginAttempts user = 0 /\ User.lastFailedLogin user = None.

Section Hashed.
Context `{Bcrypt}.



End Hashed.

Section Change.
Context `{Bcrypt}.

(** What one operation can do to the record under a key. *)
Inductive change (db : gmap string User.t) (u : string)
    : option User.t -> Prop :=
| change_none : change db u (db !! u)
| change_removed : change db u None
| change_created p salt :
    db !! u = None ->
    Policy.validatePassword p u [] = [] ->
    change db u (Some (newUser u (bcrypt_hash p 10 salt)))
| change_reset user :
    db !! u = Some user ->
    change db u (Some (setLockout user 0 None))
| change_rotated user p salt :
    db !! u = Some user ->
    Policy.validatePassword p u (User.historyPasswords user) = [] ->
    change db u (Some (rotatePassword user (bcrypt_hash p 10 salt))).

End Change.

(** Sample data for the grading and admin handlers. *)
Definition quiz : list Question.t :=
  [ Question.mk "2+2?" ["3"; "4"] "4";
    Question.mk "Capital of France?" ["Paris"; "Rome"] "Paris" ].

Definition root1 : Admin.t := Admin.mk "a1" "root" "$2a$First123!".
Definition root2 : Admin.t := Admin.mk "a2" "root" "$2a$Second12!".

(** The record of [alice] after a change of password. *)
Definition aliceRotated : User.t :=
  User.mk "alice" "$2a$Xyz789?q" ["$2a$Abc123!x"] 0 None.

(** * Properties *)

(** ** Strings *)

Section StringFacts.
Import JsString.

Lemma test_exists (cls : ascii -> bool) (s : string) :
  test cls s = true <-> exists c, c ∈ chars s /\ cls c = true.
Proof.
  unfold test. rewrite existsb_exists.
  split; intros (c & Hc & Hcls); exists c; split; auto;
    by apply list_elem_of_In.
Qed.

Lemma isSpecial_elem (c : ascii) : isSpecial c = true <-> c ∈ specialChars.
Proof.
  unfold isSpecial. rewrite existsb_exists. split.
  - intros (x & Hx & Heq). apply Ascii.eqb_eq in Heq. subst x.
    by apply list_elem_of_In.
  - intros Hc. exists c. split; [by apply list_elem_of_In|].
    apply Ascii.eqb_refl.
Qed.

Lemma startsWith_app (s t : string) :
  startsWith s t = true <-> exists post, s = t +:+ post.
Proof.
  revert s. induction t as [|b t IH]; intros s; simpl.
  - split; [intros _; by exists s | done].
  - destruct s as [|a s].
    + split; [done | intros [post Hpost]; discriminate].
    + rewrite andb_true_iff, Ascii.eqb_eq, IH. split.
      * intros [-> [post ->]]. by exists post.
      * intros [post Hpost]. injection Hpost as -> ->. split; [done | by exists post].
Qed.

Lemma includes_occurs (s t : string) :
  includes s t = true <-> PolicySpec.occursIn t s.
Proof.
  unfold PolicySpec.occursIn. induction s as [|a s IH].
  - simpl. rewrite orb_false_r, startsWith_app. split.
    + intros [post Hpost]. by exists EmptyString, post.
    + intros (pre & post & Hs). destruct pre; [by exists post | discriminate].
  - change (includes (String a s) t)
      with (startsWith (String a s) t || includes s t).
    rewrite orb_true_iff, startsWith_app, IH. split.
    + intros [[post Hpost] | (pre & post & ->)].
      * by exists EmptyString, post.
      * by exists (String a pre), post.
    + intros (pre & post & Hs). destruct pre as [|a' pre].
      * left. by exists post.
      * right. injection Hs as -> ->. by exists pre, post.
Qed.

(** *** Checks over the 256 code units *)

Lemma allAscii_all (c : ascii) : c ∈ allAscii.
Proof.
  unfold allAscii. apply list_elem_of_fmap. exists (nat_of_ascii c).
  split; [by rewrite ascii_nat_embedding|].
  apply elem_of_seq. pose proof (nat_ascii_bounded c). lia.
Qed.

Lemma forall_ascii (P : ascii -> bool) :
  forallb P allAscii = true -> forall c, P c = true.
Proof.
  intros Hall c. rewrite forallb_forall in Hall. apply Hall.
  apply list_elem_of_In, allAscii_all.
Qed.

(** A character class that agrees with a list on every code unit. *)
Lemma class_list (cls : ascii -> bool) (l : list ascii) :
  forallb (fun c => Bool.eqb (cls c) (existsb (Ascii.eqb c) l)) allAscii = true ->
  forall c, cls c = true <-> c ∈ l.
Proof.
  intros Hall c. pose proof (forall_ascii _ Hall c) as Hc. simpl in Hc.
  apply Bool.eqb_prop in Hc. rewrite Hc, existsb_exists. split.
  - intros (x & Hx & Heq). apply Ascii.eqb_eq in Heq. subst x.
    by apply list_elem_of_In.
  - intros Hin. exists c. split; [by apply list_elem_of_In | apply Ascii.eqb_refl].
Qed.

Lemma isDigit_digits (c : ascii) : isDigit c = true <-> c ∈ PolicySpec.digits.
Proof. apply class_list. vm_compute. reflexivity. Qed.

Lemma isUpper_capitals (c : ascii) : isUpper c = true <-> c ∈ PolicySpec.capitals.
Proof. apply class_list. vm_compute. reflexivity. Qed.

Lemma isLower_smalls (c : ascii) : isLower c = true <-> c ∈ PolicySpec.smalls.
Proof. apply class_list. vm_compute. reflexivity. Qed.

Lemma smallOfb_spec (a b : ascii) : smallOfb a b = true <-> PolicySpec.smallOf a b.
Proof.
  unfold smallOfb, PolicySpec.smallOf.
  rewrite andb_true_iff, !orb_true_iff, !andb_true_iff, !Nat.leb_le, Nat.eqb_eq.
  tauto.
Qed.

Lemma code_inj (a b : ascii) : code a = code b -> a = b.
Proof.
  unfold code. intros Heq.
  by rewrite <- (ascii_nat_embedding a), <- (ascii_nat_embedding b), Heq.
Qed.

(** [lowerChar] leaves a code unit alone or moves a capital to its small form. *)
Lemma lowerChar_cases (a : ascii) :
  lowerChar a = a \/ PolicySpec.smallOf a (lowerChar a).
Proof.
  assert (Hall : forall a,
             Ascii.eqb (lowerChar a) a || smallOfb a (lowerChar a) = true)
    by (apply (forall_ascii (fun a => _)); vm_compute; reflexivity).
  specialize (Hall a). apply orb_true_iff in Hall as [Heq | Hsmall].
  - left. by apply Ascii.eqb_eq.
  - right. by apply smallOfb_spec.
Qed.

(** [lowerChar] sends a capital to its small form and fixes small forms. *)
Lemma lowerChar_smallOf (a b : ascii) :
  PolicySpec.smallOf a b -> lowerChar a = b /\ lowerChar b = b.
Proof.
  assert (Hall : forall a,
             implb (smallOfb a (ascii_of_nat (code a + 32)))
                   (Ascii.eqb (lowerChar a) (ascii_of_nat (code a + 32))
                    && Ascii.eqb (lowerChar (ascii_of_nat (code a + 32)))
                                 (ascii_of_nat (code a + 32))) = true)
    by (apply (forall_ascii (fun a => _)); vm_compute; reflexivity).
  intros Hsmall. pose proof Hsmall as [_ Hcode].
  assert (Hb : b = ascii_of_nat (code a + 32))
    by (rewrite <- Hcode; unfold code; by rewrite ascii_nat_embedding).
  subst b. specialize (Hall a).
  rewrite (proj2 (smallOfb_spec _ _) Hsmall) in Hall. simpl in Hall.
  apply andb_true_iff in Hall as [H1 H2].
  by rewrite !Ascii.eqb_eq in H1, H2.
Qed.

(** Two code units have the same lower-case form exactly when they are the
    same letter up to case. *)
Lemma lowerChar_sameLetter (a b : ascii) :
  lowerChar a = lowerChar b <-> PolicySpec.sameLetter a b.
Proof.
  unfold PolicySpec.sameLetter. split.
  - intros Heq.
    destruct (lowerChar_cases a) as [Ha | Ha], (lowerChar_cases b) as [Hb | Hb].
    + left. congruence.
    + right; right. by rewrite <- Heq, Ha in Hb.
    + right; left. by rewrite Heq, Hb in Ha.
    + left. apply code_inj.
      destruct Ha as [_ Ha], Hb as [_ Hb]. rewrite Heq in Ha. lia.
  - intros [-> | [Hab | Hba]]; [done | |].
    + destruct (lowerChar_smallOf a b Hab). congruence.
    + destruct (lowerChar_smallOf b a Hba). congruence.
Qed.

(** *** Containment up to case *)

Lemma chars_app (s t : string) : chars (s +:+ t) = chars s ++ chars t.
Proof. induction s as [|c s IH]; [done|]. simpl. by rewrite IH. Qed.

Lemma chars_toLowerCase (s : string) :
  chars (toLowerCase s) = lowerChar <$> chars s.
Proof. induction s as [|c s IH]; [done|]. simpl. by rewrite IH. Qed.

Lemma chars_inj (s t : string) : chars s = chars t -> s = t.
Proof.
  unfold chars. intros Heq.
  by rewrite <- (String.string_of_list_ascii_of_string s),
             <- (String.string_of_list_ascii_of_string t), Heq.
Qed.

Lemma toLowerCase_app (s t : string) :
  toLowerCase (s +:+ t) = toLowerCase s +:+ toLowerCase t.
Proof. induction s as [|c s IH]; [done|]. simpl. by rewrite IH. Qed.

Lemma fmap_eq_Forall2 {A B} (f : A -> B) (l k : list A) :
  f <$> l = f <$> k <-> Forall2 (fun a b => f a = f b) l k.
Proof.
  revert k. induction l as [|a l IH]; intros [|b k]; simpl; split; intros Hx;
    try done; try (by inversion Hx).
  - injection Hx as Hab Hlk. constructor; [done | by apply IH].
  - inversion Hx; subst. f_equal; [done | by apply IH].
Qed.

Lemma toLowerCase_equalIgnoringCase (s t : string) :
  toLowerCase s = toLowerCase t <-> PolicySpec.equalIgnoringCase s t.
Proof.
  unfold PolicySpec.equalIgnoringCase. split.
  - intros Heq. apply (f_equal chars) in Heq.
    rewrite !chars_toLowerCase in Heq. apply fmap_eq_Forall2 in Heq.
    eapply Forall2_impl; [exact Heq|]. intros a b. apply lowerChar_sameLetter.
  - intros Hall. apply chars_inj. rewrite !chars_toLowerCase.
    apply fmap_eq_Forall2.
    eapply Forall2_impl; [exact Hall|]. intros a b. apply lowerChar_sameLetter.
Qed.

(** The test of the sixth rule, lower-casing both strings and looking for a
    substring, finds exactly the occurrences up to case. *)
Lemma includes_ignoring_case (p u : string) :
  includes (toLowerCase p) (toLowerCase u) = true
  <-> PolicySpec.containsIgnoringCase p u.
Proof.
  rewrite includes_occurs. unfold PolicySpec.occursIn, PolicySpec.containsIgnoringCase.
  split.
  - intros (pre' & post' & Heq). apply (f_equal chars) in Heq.
    rewrite !chars_app, !chars_toLowerCase in Heq.
    apply fmap_app_inv in Heq as (k1 & k23 & _ & H23 & Hp).
    symmetry in H23. apply fmap_app_inv in H23 as (k2 & k3 & H2 & _ & ->).
    exists (String.string_of_list_ascii k1), (String.string_of_list_ascii k2),
           (String.string_of_list_ascii k3).
    split.
    + apply chars_inj. rewrite !chars_app. unfold chars.
      by rewrite !String.list_ascii_of_string_of_list_ascii.
    + apply toLowerCase_equalIgnoringCase, chars_inj.
      rewrite !chars_toLowerCase. unfold chars at 1.
      by rewrite String.list_ascii_of_string_of_list_ascii.
  - intros (pre & w & post & -> & Hw).
    apply toLowerCase_equalIgnoringCase in Hw.
    exists (toLowerCase pre), (toLowerCase post).
    by rewrite !toLowerCase_app, Hw.
Qed.

End StringFacts.

(** ** The password policy *)

Section PolicyFacts.
Context `{Bcrypt}.
Import JsString PolicySpec.

(** The validator pushes, in rule order, the message of each flagged rule. *)
Lemma validatePassword_flagged (p u : string) (h : list string) :
  Policy.validatePassword p u h
  = message <$> List.filter (fun r => flagged r p u h) rules.
Proof.
  unfold Policy.validatePassword, rules, flagged, Policy.push. simpl.
  repeat match goal with
         | |- context [if ?b then _ else _] => destruct b
         end; reflexivity.
Qed.

(** A rule is left unflagged exactly when the candidate satisfies it. *)
Lemma flagged_false_holds (r : rule) (p u : string) (h : list string) :
  flagged r p u h = false <-> holds r p u h.
Proof.
  destruct r; simpl.
  - rewrite orb_false_iff, !Nat.ltb_ge. lia.
  - rewrite negb_false_iff, test_exists.
    split; intros (c & Hc & Hs); exists c; split; auto; by apply isDigit_digits.
  - rewrite negb_false_iff, test_exists.
    split; intros (c & Hc & Hs); exists c; split; auto; by apply isUpper_capitals.
  - rewrite negb_false_iff, test_exists.
    split; intros (c & Hc & Hs); exists c; split; auto; by apply isLower_smalls.
  - rewrite negb_false_iff, test_exists.
    split; intros (c & Hc & Hs); exists c; split; auto; by apply isSpecial_elem.
  - by rewrite <- not_true_iff_false, includes_ignoring_case.
  - rewrite <- not_true_iff_false, existsb_exists. split.
    + intros Hn hash Hin. destruct (bcrypt_compare p hash) eqn:Ecmp; [|done].
      exfalso. apply Hn. exists hash. split; [by apply list_elem_of_In | done].
    + intros Hall (hash & Hin & Hcmp).
      rewrite (Hall hash) in Hcmp; [done | by apply list_elem_of_In].
Qed.

(** A rule is flagged exactly when the candidate breaks it. *)
Lemma flagged_broken (r : rule) (p u : string) (h : list string) :
  flagged r p u h = true <-> ~ holds r p u h.
Proof.
  rewrite <- flagged_false_holds. destruct (flagged r p u h); split; congruence.
Qed.



Lemma rules_all (r : rule) : r ∈ rules.
Proof. unfold rules. rewrite !elem_of_cons. destruct r; tauto. Qed.

Lemma flagged_rules_elem (r : rule) (p u : string) (h : list string) :
  r ∈ List.filter (fun r => flagged r p u h) rules <-> ~ holds r p u h.
Proof.
  rewrite list_elem_of_In, filter_In, <- list_elem_of_In, flagged_broken.
  pose proof (rules_all r). tauto.
Qed.


(** C7. A candidate that the hasher matches against some hash of the history
    gets the reuse violation, whatever the other rules say. *)
Theorem validatePassword_rejects_reuse
    (p u hash : string) (h : list string) :
  hash ∈ h ->
  bcrypt_compare p hash = true ->
  Policy.msgReuse ∈ Policy.validatePassword p u h.
Proof.
  intros Hin Hcmp. rewrite validatePassword_flagged.
  apply (list_elem_of_fmap_2 message _ NoReuse).
  apply flagged_rules_elem. simpl. intros Hall.
  rewrite (Hall hash Hin) in Hcmp. discriminate.
Qed.

End PolicyFacts.

(** ** The policy beyond code unit 255 *)

Section WideFacts.
Import JsString.

Lemma N_of_ascii_eqb (a b : ascii) :
  (N_of_ascii a =? N_of_ascii b)%N = Ascii.eqb a b.
Proof.
  destruct (Ascii.eqb_spec a b) as [->|Hne]; [apply N.eqb_refl|].
  apply N.eqb_neq. intros Heq. apply Hne.
  by rewrite <- (ascii_N_embedding a), <- (ascii_N_embedding b), Heq.
Qed.

Lemma widen_length (s : string) : length (Utf16.widen s) = String.length s.
Proof.
  unfold Utf16.widen. rewrite length_fmap.
  induction s as [|c s IH]; [done|]. simpl. by rewrite IH.
Qed.

Lemma widen_test (clsW : N -> bool) (cls : ascii -> bool) (s : string) :
  forallb (fun c => Bool.eqb (clsW (N_of_ascii c)) (cls c)) allAscii = true ->
  Utf16.test clsW (Utf16.widen s) = test cls s.
Proof.
  intros Hall. unfold Utf16.test, test, Utf16.widen.
  induction (chars s) as [|c l IH]; [done|].
  change (clsW (N_of_ascii c) || existsb clsW (N_of_ascii <$> l)
          = cls c || existsb cls l).
  rewrite IH. f_equal. apply Bool.eqb_prop, (forall_ascii _ Hall c).
Qed.

Lemma widen_lowerFrom (before : Utf16.ustring) (s : string) :
  Utf16.lowerFrom before (Utf16.widen s) = Utf16.widen (toLowerCase s).
Proof.
  assert (Hall : forall c,
             negb (N_of_ascii c =? Utf16.capitalSigma)%N
             && (Utf16.lowerUnit (N_of_ascii c) =? N_of_ascii (lowerChar c))%N
             = true)
    by (apply (forall_ascii (fun c => _)); vm_compute; reflexivity).
  revert before. induction s as [|c s IH]; intros before; [done|].
  specialize (Hall c). apply andb_true_iff in Hall as [Hsigma Hlower].
  apply negb_true_iff in Hsigma. apply N.eqb_eq in Hlower.
  unfold Utf16.widen in *. simpl. rewrite Hsigma, Hlower. f_equal. apply IH.
Qed.

Lemma widen_startsWith (s t : string) :
  Utf16.startsWith (Utf16.widen s) (Utf16.widen t) = startsWith s t.
Proof.
  revert s. induction t as [|b t IH]; intros s; [done|].
  destruct s as [|a s]; [done|].
  unfold Utf16.widen in *. simpl. by rewrite N_of_ascii_eqb, IH.
Qed.

Lemma widen_includes (s t : string) :
  Utf16.includes (Utf16.widen s) (Utf16.widen t) = includes s t.
Proof.
  induction s as [|a s IH].
  - simpl. rewrite <- (widen_startsWith EmptyString t). by destruct t.
  - change (includes (String a s) t)
      with (startsWith (String a s) t || includes s t).
    rewrite <- IH, <- widen_startsWith. reflexivity.
Qed.

Lemma widen_toLowerCase (s : string) :
  Utf16.toLowerCase (Utf16.widen s) = Some (Utf16.widen (toLowerCase s)).
Proof.
  assert (Hall : forall c, Utf16.modelled (N_of_ascii c) = true)
    by (apply (forall_ascii (fun c => _)); vm_compute; reflexivity).
  unfold Utf16.toLowerCase.
  assert (Hmod : forallb Utf16.modelled (Utf16.widen s) = true).
  { apply forallb_forall. intros c Hc. apply list_elem_of_In in Hc.
    unfold Utf16.widen in Hc. apply list_elem_of_fmap in Hc as (a & -> & _).
    apply Hall. }
  by rewrite Hmod, widen_lowerFrom.
Qed.

(** On code units below 256 the two embeddings of the validator agree. *)
Lemma validatePassword_widen `{Bcrypt}
    (compareSync : Utf16.ustring -> string -> bool)
    (p u : string) (h : list string) :
  (forall hash, compareSync (Utf16.widen p) hash = bcrypt_compare p hash) ->
  Utf16.validatePassword compareSync (Utf16.widen p) (Utf16.widen u) h
  = Some (Policy.validatePassword p u h).
Proof.
  intros Hcmp. unfold Utf16.validatePassword, Policy.validatePassword.
  rewrite widen_length, !widen_toLowerCase, widen_includes.
  rewrite (widen_test Utf16.isDigit isDigit), (widen_test Utf16.isUpper isUpper),
    (widen_test Utf16.isLower isLower), (widen_test Utf16.isSpecial isSpecial)
    by (vm_compute; reflexivity).
  assert (Hex : existsb (fun hash => compareSync (Utf16.widen p) hash) h
                = existsb (fun hash => bcrypt_compare p hash) h).
  { induction h as [|hash h IH]; [done|]. simpl. by rewrite Hcmp, IH. }
  by rewrite Hex.
Qed.

(** C4. [validatePassword] does not report every broken rule.  For the
    password AΣb1!Cdef and the identity AΣ, with no history, it returns the
    empty list although the password contains the identity as it stands:
    [toLowerCase] turns the sigma of the identity, which ends a word, into
    the final sigma and the sigma of the password into the small sigma, and
    [includes] then finds nothing. *)
Theorem validatePassword_misses_identity
    (compareSync : Utf16.ustring -> string -> bool) :
  Utf16.validatePassword compareSync Utf16.sigmaPassword Utf16.sigmaUsername []
  = Some [] /\
  Utf16.sigmaPassword
  = Utf16.sigmaUsername ++ [98; 49; 33; 67; 100; 101; 102]%N /\
  Utf16.toLowerCase Utf16.sigmaUsername = Some [97; 962]%N /\
  Utf16.toLowerCase Utf16.sigmaPassword
  = Some [97; 963; 98; 49; 33; 99; 100; 101; 102]%N.
Proof. repeat split. Qed.

End WideFacts.

(** ** Login and the lockout counters *)

Section LoginFacts.
Context `{Bcrypt} `{Jwt}.
Variable jwtSecret : string.

Implicit Types (db : gmap string User.t) (user : User.t) (now : Z).

Lemma lockoutTime_ms : lockoutTime = 60 * 1000.
Proof. reflexivity. Qed.

(** The handler on a request with both fields, for a stored identity: the
    credential check of line 169 comes first, then the lockout gate. *)
Lemma login_existing db (u p : string) now user :
  JsString.truthy u = true -> JsString.truthy p = true ->
  db !! u = Some user ->
  login jwtSecret db (Some u) (Some p) now
  = if bcrypt_compare p (User.password user) then
      if (3 <=? User.failedLoginAttempts user)
         && (now - getTime (User.lastFailedLogin user) <? lockoutTime)
      then (db, lockedOut)
      else
        (<[u := setLockout user 0 None]> db,
         mkResponse 200
           (TokenObj (jwt_sign {[ "username" := JStr (User.username user) ]}
                               jwtSecret 3600 now)))
    else (db, invalidCredentials).
Proof.
  intros Hu Hp Hdb. unfold login, missing. rewrite Hu, Hp, Hdb. simpl.
  destruct (bcrypt_compare p (User.password user)) eqn:Hcmp; [|done]. simpl.
  unfold lockoutCheck.
  destruct (3 <=? User.failedLoginAttempts user); simpl.
  - destruct (now - getTime (User.lastFailedLogin user) <? lockoutTime);
      [done|]. simpl. by rewrite Hcmp.
  - by rewrite Hcmp.
Qed.

(** The handler either leaves the collection alone or stores a document with
    zeroed counters. *)
Lemma login_store db (username password : option string) now :
  (login jwtSecret db username password now).1 = db \/
  exists u user,
    db !! u = Some user /\
    (login jwtSecret db username password now).1
    = <[u := setLockout user 0 None]> db.
Proof.
  destruct username as [u|], password as [p|]; try by left.
  destruct (JsString.truthy u) eqn:Hu;
    [|left; unfold login, missing; by rewrite Hu].
  destruct (JsString.truthy p) eqn:Hp;
    [|left; unfold login, missing; by rewrite Hu, Hp].
  destruct (db !! u) as [user|] eqn:Hdb;
    [|left; unfold login, missing; by rewrite Hu, Hp, Hdb].
  rewrite (login_existing db u p now user Hu Hp Hdb).
  destruct (bcrypt_compare p (User.password user)); [|by left].
  destruct (_ && _); [by left|]. right. by exists u, user.
Qed.

(** C1. On an account with at least three failures and a last failure less
    than 60 seconds old, the handler answers 403 only when the supplied
    password matches; a wrong password is answered 401 by the credential
    check that precedes the lockout gate.  The collection is not written. *)
Theorem login_locked_response db (u p : string) now user :
  JsString.truthy u = true -> JsString.truthy p = true ->
  db !! u = Some user ->
  Locked user now ->
  login jwtSecret db (Some u) (Some p) now
  = (db, if bcrypt_compare p (User.password user)
         then lockedOut else invalidCredentials).
Proof.
  intros Hu Hp Hdb [Hn Ht]. rewrite (login_existing db u p now user Hu Hp Hdb).
  destruct (bcrypt_compare p (User.password user)); [|done].
  rewrite (proj2 (Z.leb_le _ _) Hn), lockoutTime_ms.
  by rewrite (proj2 (Z.ltb_lt _ _) Ht).
Qed.

(** C2. A wrong password for a stored identity is answered 401 with the
    collection left as it was: no counter is incremented, no timestamp set,
    nothing saved. *)
Theorem login_wrong_password_leaves_record db (u p : string) now user :
  JsString.truthy u = true -> JsString.truthy p = true ->
  db !! u = Some user ->
  bcrypt_compare p (User.password user) = false ->
  login jwtSecret db (Some u) (Some p) now = (db, invalidCredentials).
Proof.
  intros Hu Hp Hdb Hcmp. rewrite (login_existing db u p now user Hu Hp Hdb).
  by rewrite Hcmp.
Qed.

(** C3. On an account with at least three failures whose last failure is 60
    seconds old or more, the counters are zeroed only when the supplied
    password matches (and the login then succeeds); with a wrong password the
    handler answers 401 before the lockout gate and the stored counters stay
    as they were. *)
Theorem login_expired_lockout db (u p : string) now user :
  JsString.truthy u = true -> JsString.truthy p = true ->
  db !! u = Some user ->
  3 <= User.failedLoginAttempts user ->
  60 * 1000 <= now - getTime (User.lastFailedLogin user) ->
  login jwtSecret db (Some u) (Some p) now
  = if bcrypt_compare p (User.password user) then
      (<[u := setLockout user 0 None]> db,
       mkResponse 200
         (TokenObj (jwt_sign {[ "username" := JStr (User.username user) ]}
                             jwtSecret 3600 now)))
    else (db, invalidCredentials).
Proof.
  intros Hu Hp Hdb Hn Ht. rewrite (login_existing db u p now user Hu Hp Hdb).
  destruct (bcrypt_compare p (User.password user)); [|done].
  rewrite lockoutTime_ms, (proj2 (Z.ltb_ge _ _) Ht). by rewrite andb_false_r.
Qed.

(** C6. A successful login (the identity is stored, the account is not
    Locked, the password verifies) stores the record with [failedLoginAttempts]
    0 and [lastFailedLogin] null, everything else unchanged, and answers with
    a token signed for the username. *)
Theorem login_success_resets_counters db (u p : string) now user :
  JsString.truthy u = true -> JsString.truthy p = true ->
  db !! u = Some user ->
  ~ Locked user now ->
  bcrypt_compare p (User.password user) = true ->
  exists user',
    login jwtSecret db (Some u) (Some p) now
    = (<[u := user']> db,
       mkResponse 200
         (TokenObj (jwt_sign {[ "username" := JStr (User.username user) ]}
                             jwtSecret 3600 now))) /\
    User.failedLoginAttempts user' = 0 /\
    User.lastFailedLogin user' = None /\
    User.username user' = User.username user /\
    User.password user' = User.password user /\
    User.historyPasswords user' = User.historyPasswords user.
Proof.
  intros Hu Hp Hdb Hopen Hcmp. exists (setLockout user 0 None).
  split; [|done].
  rewrite (login_existing db u p now user Hu Hp Hdb), Hcmp.
  destruct (3 <=? User.failedLoginAttempts user) eqn:Hn; [|done].
  destruct (now - getTime (User.lastFailedLogin user) <? lockoutTime) eqn:Ht;
    [|done].
  destruct Hopen. split; [by apply Z.leb_le | by apply Z.ltb_lt in Ht].
Qed.

End LoginFacts.

(** ** The invariant of the account record *)

Section InvariantFacts.
Context `{Bcrypt} `{Jwt}.
Variable jwtSecret : string.

Implicit Types (db : gmap string User.t) (user : User.t).

Lemma storeConsistent_insert db (u : string) user :
  storeConsistent db -> countersConsistent user ->
  storeConsistent (<[u := user]> db).
Proof.
  intros Hdb Huser u' user'. rewrite lookup_insert.
  case_decide; [by intros [= <-] | apply Hdb].
Qed.

Lemma storeConsistent_delete db (u : string) :
  storeConsistent db -> storeConsistent (delete u db).
Proof.
  intros Hdb u' user'. rewrite lookup_delete.
  case_decide; [done | apply Hdb].
Qed.

Lemma register_consistent db username password salt :
  storeConsistent db -> storeConsistent (register db username password salt).1.
Proof.
  intros Hdb. unfold register.
  destruct username as [u|], password as [p|]; try done.
  destruct (_ || _); [done|]. destruct (db !! u); [done|].
  destruct (0 <? _)%nat; [done|]. simpl.
  by apply storeConsistent_insert.
Qed.

Lemma login_consistent db username password now :
  storeConsistent db ->
  storeConsistent (login jwtSecret db username password now).1.
Proof.
  intros Hdb.
  destruct (login_store jwtSecret db username password now)
    as [-> | (u & user & _ & ->)]; [done|].
  by apply storeConsistent_insert.
Qed.

Lemma updateUser_consistent db username password salt :
  storeConsistent db ->
  storeConsistent (updateUser db username password salt).1.
Proof.
  intros Hdb. unfold updateUser.
  destruct (db !! username) as [user|] eqn:Hu; [|done].
  destruct password as [p|]; [|done].
  destruct (JsString.truthy p); [|done].
  destruct (0 <? _)%nat; [done|]. simpl.
  apply storeConsistent_insert; [done|]. apply (Hdb _ _ Hu).
Qed.

Lemma deleteUser_consistent db username :
  storeConsistent db -> storeConsistent (deleteUser db username).1.
Proof.
  intros Hdb. unfold deleteUser. destruct (db !! username); [|done].
  by apply storeConsistent_delete.
Qed.

Lemma reachable_consistent db :
  reachable jwtSecret db -> storeConsistent db.
Proof.
  induction 1 as [|db db' _ IH Hstep]; [by intros u user|].
  destruct Hstep.
  - by apply register_consistent.
  - by apply login_consistent.
  - by apply updateUser_consistent.
  - by apply deleteUser_consistent.
Qed.

(** C5. Every account record of a collection reached from the empty one by
    registrations, logins (right or wrong password, locked or expired),
    password changes and deletions has [failedLoginAttempts] 0 exactly when
    [lastFailedLogin] is null. *)
Theorem reachable_counters_consistent db (u : string) user :
  reachable jwtSecret db ->
  db !! u = Some user ->
  User.failedLoginAttempts user = 0 <-> User.lastFailedLogin user = None.
Proof. intros Hreach Hu. exact (reachable_consistent db Hreach u user Hu). Qed.

End InvariantFacts.

(** ** Password change *)

Section UpdateFacts.
Context `{Bcrypt}.

Implicit Types (db : gmap string User.t) (user : User.t).

(** C9. A password change for a stored identity with a non-empty new password:
    when the password passes validation against the whole history, the stored
    hash becomes the hash of the new password and the old hash is appended to
    the history (the other fields are kept); when validation fails, the
    answer is 400 with the violations joined by a space and the collection is
    unchanged. *)
Theorem updateUser_rotates_or_rejects db (u p salt : string) user :
  db !! u = Some user ->
  JsString.truthy p = true ->
  (Policy.validatePassword p u (User.historyPasswords user) = [] ->
   exists user',
     updateUser db u (Some p) salt
     = (<[u := user']> db,
        mkResponse 200 (MessageObj "User updated successfully")) /\
     User.password user' = bcrypt_hash p 10 salt /\
     User.historyPasswords user'
     = User.historyPasswords user ++ [User.password user] /\
     User.username user' = User.username user /\
     User.failedLoginAttempts user' = User.failedLoginAttempts user /\
     User.lastFailedLogin user' = User.lastFailedLogin user) /\
  (Policy.validatePassword p u (User.historyPasswords user) <> [] ->
   updateUser db u (Some p) salt
   = (db,
      mkResponse 400
        (ErrorObj
           (JsString.join " "
              (Policy.validatePassword p u (User.historyPasswords user)))))).
Proof.
  intros Hu Hp. unfold updateUser. rewrite Hu, Hp. split.
  - intros ->. simpl. by exists (rotatePassword user (bcrypt_hash p 10 salt)).
  - intros Hne.
    destruct (Policy.validatePassword p u (User.historyPasswords user));
      [done|]. reflexivity.
Qed.

End UpdateFacts.

(** ** The admin gate *)

Section GateFacts.
Context `{Bcrypt} `{Jwt}.
Variable jwtSecret : string.

Implicit Types (claims : gmap string jsval).

Lemma strictNeqStr_false (v : option jsval) (s : string) :
  strictNeqStr v s = false <-> v = Some (JStr s).
Proof.
  destruct v as [[| | |t]|]; simpl; try (split; [discriminate | congruence]).
  rewrite negb_false_iff, String.eqb_eq. split; [by intros -> | congruence].
Qed.

(** C8. For a request carrying verified claims, the gate calls [next()]
    exactly when the [role] claim is the string admin; in every other case,
    a missing [role] claim included, it answers 403 Forbidden. *)
Theorem checkAdminRole_allows_iff_admin
    (header : option string) claims (now : Z) :
  let req := mkRequest header (Some claims) in
  (checkAdminRole req now = Next req <-> claims !! "role" = Some (JStr "admin")) /\
  (checkAdminRole req now = Reply (mkResponse 403 (ErrorObj "Forbidden"))
   <-> claims !! "role" <> Some (JStr "admin")) /\
  (claims !! "role" = None ->
   checkAdminRole req now = Reply (mkResponse 403 (ErrorObj "Forbidden"))).
Proof.
  intros req. unfold checkAdminRole. simpl.
  pose proof (strictNeqStr_false (claims !! "role") "admin") as Hrole.
  destruct (strictNeqStr (claims !! "role") "admin").
  - split; [|split].
    + split; [discriminate|]. intros Hadmin. by apply Hrole in Hadmin.
    + split; [|done]. intros _ Hadmin. by apply Hrole in Hadmin.
    + done.
  - assert (Hadmin : claims !! "role" = Some (JStr "admin")) by by apply Hrole.
    split; [|split].
    + done.
    + split; [discriminate | done].
    + intros Hnone. congruence.
Qed.

Lemma login_token db (username password : option string) (now : Z)
    db' (token : string) :
  login jwtSecret db username password now
  = (db', mkResponse 200 (TokenObj token)) ->
  exists name, token = jwt_sign {[ "username" := JStr name ]} jwtSecret 3600 now.
Proof.
  destruct username as [u|], password as [p|]; try discriminate.
  destruct (JsString.truthy u) eqn:Hu;
    [|unfold login, missing; rewrite Hu; discriminate].
  destruct (JsString.truthy p) eqn:Hp;
    [|unfold login, missing; rewrite Hu, Hp; discriminate].
  destruct (db !! u) as [user|] eqn:Hdb;
    [|unfold login, missing; rewrite Hu, Hp, Hdb; discriminate].
  rewrite (login_existing jwtSecret db u p now user Hu Hp Hdb).
  destruct (bcrypt_compare p (User.password user)); [|discriminate].
  destruct (_ && _); [discriminate|].
  intros [= _ <-]. by exists (User.username user).
Qed.

Lemma privileged_guards (r : route) :
  privileged r = true ->
  guards jwtSecret r = [authenticateToken jwtSecret; checkAdminRole].
Proof. by destruct r. Qed.

(** C10. A token answered by the login handler is signed over a payload that
    holds the username and no [role]; a request that presents it on a
    privileged route is answered 403 at every time, and when the token
    verifies it is the admin gate that answers, with the Forbidden error. *)
Theorem login_token_rejected_by_admin_gate
    db (username password : option string) (now : Z) db' (token : string)
    (r : route) (req : Request) (now' : Z) :
  JwtContract ->
  login jwtSecret db username password now
  = (db', mkResponse 200 (TokenObj token)) ->
  privileged r = true ->
  bearerToken req = Some token ->
  (exists name,
      token = jwt_sign {[ "username" := JStr name ]} jwtSecret 3600 now /\
      ({[ "username" := JStr name ]} : gmap string jsval) !! "role" = None) /\
  exists res,
    runGuards (guards jwtSecret r) req now' = Reply res /\
    status res = 403 /\
    (is_Some (jwt_verify token jwtSecret now') ->
     res = mkResponse 403 (ErrorObj "Forbidden")).
Proof.
  intros Hrole Hlogin Hr Hreq.
  destruct (login_token _ _ _ _ _ _ Hlogin) as [name ->].
  split; [by exists name|].
  rewrite (privileged_guards r Hr). simpl.
  unfold authenticateToken. rewrite Hreq.
  destruct (jwt_verify _ jwtSecret now') as [claims|] eqn:Hverify.
  - apply Hrole in Hverify. unfold checkAdminRole. simpl.
    rewrite Hverify, lookup_singleton_ne by done. simpl. eauto.
  - exists (sendStatus 403). split; [done|]. split; [done|].
    by intros [? ?].
Qed.

End GateFacts.

(** ** The handlers on concrete requests *)

Section Runs.
Import JsString.

Lemma toyJwt_contract : @JwtContract toyJwt.
Proof.
  intros p s e t t' c. simpl.
  destruct (p !! "role") as [[| | |r]|]; simpl; try discriminate.
  - intros [= <-]. by rewrite lookup_singleton_eq.
  - intros [= <-]. by rewrite lookup_singleton_ne.
Qed.

(** The locked account, one second after its third failure, wrong password:
    the answer is 401, not 403. *)
Lemma login_locked_wrong_password_unauthorized :
  @login toyBcrypt toyJwt "secret" lockedDb (Some "alice") (Some "Wrong999!") 2000
  = (lockedDb, invalidCredentials).
Proof.
  refine (@login_locked_response toyBcrypt toyJwt "secret" lockedDb
            "alice" "Wrong999!" 2000 aliceLocked _ _ _ _).
  - reflexivity.
  - reflexivity.
  - reflexivity.
  - split; simpl; lia.
Defined.

(** A wrong password on a fresh account: 401, and the stored counters are
    still 0 and null. *)
Lemma login_wrong_password_no_increment :
  @login toyBcrypt toyJwt "secret" aliceDb (Some "alice") (Some "Wrong999!") 5000
  = (aliceDb, invalidCredentials).
Proof.
  refine (@login_wrong_password_leaves_record toyBcrypt toyJwt "secret" aliceDb
            "alice" "Wrong999!" 5000 alice _ _ _ _); reflexivity.
Defined.

(** The locked account, 60 seconds after its third failure, wrong password:
    401, and the stored record still counts three failures. *)
Lemma login_expired_wrong_password_not_reset :
  @login toyBcrypt toyJwt "secret" lockedDb (Some "alice") (Some "Wrong999!") 61000
  = (lockedDb, invalidCredentials).
Proof.
  refine (@login_expired_lockout toyBcrypt toyJwt "secret" lockedDb
            "alice" "Wrong999!" 61000 aliceLocked _ _ _ _ _).
  - reflexivity.
  - reflexivity.
  - reflexivity.
  - simpl; lia.
  - simpl; lia.
Defined.

(** The locked account, 60 seconds after its third failure, right password:
    the login succeeds and the counters are zeroed. *)
Lemma login_success_after_expiry :
  exists user',
    @login toyBcrypt toyJwt "secret" lockedDb (Some "alice") (Some "Abc123!x") 61000
    = (<["alice" := user']> lockedDb, mkResponse 200 (TokenObj "n.alice")) /\
    User.failedLoginAttempts user' = 0 /\
    User.lastFailedLogin user' = None /\
    User.username user' = "alice" /\
    User.password user' = "$2a$Abc123!x" /\
    User.historyPasswords user' = [].
Proof.
  refine (@login_success_resets_counters toyBcrypt toyJwt "secret" lockedDb
            "alice" "Abc123!x" 61000 aliceLocked _ _ _ _ _).
  - reflexivity.
  - reflexivity.
  - reflexivity.
  - intros [_ Ht]. simpl in Ht. lia.
  - reflexivity.
Defined.

(** The record stored by a registration satisfies the invariant. *)
Lemma registered_counters_consistent :
  User.failedLoginAttempts alice = 0 <-> User.lastFailedLogin alice = None.
Proof.
  refine (@reachable_counters_consistent toyBcrypt toyJwt "secret"
            (@register toyBcrypt ∅ (Some "alice") (Some "Abc123!x") "salt").1
            "alice" alice _ _).
  - eapply reachable_step; [apply reachable_empty | apply step_register].
  - reflexivity.
Defined.

(** The current password of [alice], once retired to the history, is refused. *)
Lemma validatePassword_reuse_run :
  Policy.msgReuse
  ∈ @Policy.validatePassword toyBcrypt "Abc123!x" "bob" ["$2a$Abc123!x"].
Proof.
  refine (@validatePassword_rejects_reuse toyBcrypt
            "Abc123!x" "bob" "$2a$Abc123!x" ["$2a$Abc123!x"] _ _).
  - apply list_elem_of_here.
  - reflexivity.
Defined.

(** A password change with an empty password: validation would report
    violations, yet the answer is the success message, not the joined list. *)
Lemma updateUser_empty_password_not_validated :
  @Policy.validatePassword toyBcrypt "" "alice" (User.historyPasswords alice)
  <> [] /\
  @updateUser toyBcrypt aliceDb "alice" (Some "") "salt"
  = (aliceDb, mkResponse 200 (MessageObj "User updated successfully")) /\
  (@updateUser toyBcrypt aliceDb "alice" (Some "") "salt").2
  <> mkResponse 400
       (ErrorObj
          (join " "
             (@Policy.validatePassword toyBcrypt "" "alice"
                (User.historyPasswords alice)))).
Proof. split; [|split]; [discriminate | reflexivity | discriminate]. Qed.

(** A valid new password rotates the hash of [alice] and retires the old
    one to the history. *)
Lemma updateUser_run :
  @updateUser toyBcrypt aliceDb "alice" (Some "Xyz789?q") "salt"
  = (<["alice" := User.mk "alice" "$2a$Xyz789?q" ["$2a$Abc123!x"] 0 None]> aliceDb,
     mkResponse 200 (MessageObj "User updated successfully")).
Proof.
  destruct (@updateUser_rotates_or_rejects toyBcrypt aliceDb
              "alice" "Xyz789?q" "salt" alice eq_refl eq_refl) as [Hok _].
  destruct (Hok eq_refl) as (user' & Hrun & Hp & Hh & Hn & Hf & Hl).
  rewrite Hrun. destruct user'. simpl in Hp, Hh, Hn, Hf, Hl.
  rewrite Hp, Hh, Hn, Hf, Hl. reflexivity.
Defined.

(** The token of a successful login of [alice], presented when creating a
    question, is answered 403 by the admin gate. *)
Lemma login_token_run :
  runGuards (@guards toyJwt "secret" PostQuestion)
            (mkRequest (Some "Bearer n.alice") None) 6000
  = Reply (mkResponse 403 (ErrorObj "Forbidden")).
Proof.
  destruct (@login_token_rejected_by_admin_gate toyBcrypt toyJwt "secret"
              aliceDb (Some "alice") (Some "Abc123!x") 5000
              (<["alice" := alice]> aliceDb) "n.alice"
              PostQuestion (mkRequest (Some "Bearer n.alice") None) 6000
              toyJwt_contract eq_refl eq_refl eq_refl)
    as (_ & res & Hrun & _ & Hres).
  rewrite Hrun, Hres; [reflexivity|]. by eexists.
Defined.

End Runs.

(** ** The bearer header and the route guards *)

Section HeaderFacts.
Import JsString.

Lemma chars_cons (c : ascii) (s : string) : chars (String c s) = c :: chars s.
Proof. reflexivity. Qed.

(** A string without the separator is a single piece. *)
Lemma split_no_sep (sep : ascii) (s : string) :
  sep ∉ chars s -> split sep s = [s].
Proof.
  induction s as [|c s IH]; [done|].
  rewrite chars_cons, not_elem_of_cons. intros [Hc Hs]. simpl.
  destruct (Ascii.eqb_spec c sep) as [->|_]; [done|].
  by rewrite (IH Hs).
Qed.

(** The first piece ends at the first separator. *)
Lemma split_app_sep (sep : ascii) (s t : string) :
  sep ∉ chars s -> split sep (s +:+ String sep t) = s :: split sep t.
Proof.
  induction s as [|c s IH].
  - intros _. simpl. by rewrite Ascii.eqb_refl.
  - rewrite chars_cons, not_elem_of_cons. intros [Hc Hs]. simpl.
    destruct (Ascii.eqb_spec c sep) as [->|_]; [done|].
    by rewrite (IH Hs).
Qed.

(** X1. The scheme word of the [authorization] header is not inspected: for
    any header made of a word without spaces, one space and a non-empty token
    without spaces, the token handed to [jwt.verify] is that token. *)
Theorem bearerToken_any_scheme
    (scheme token : string) (usr : option (gmap string jsval)) :
  " "%char ∉ chars scheme ->
  " "%char ∉ chars token ->
  token <> "" ->
  bearerToken (mkRequest (Some (scheme +:+ " " +:+ token)) usr) = Some token.
Proof.
  intros Hscheme Htoken Hne. unfold bearerToken. simpl.
  assert (Htruthy : truthy (scheme +:+ " " +:+ token) = true)
    by by destruct scheme.
  rewrite Htruthy.
  change (scheme +:+ " " +:+ token) with (scheme +:+ String " " token).
  rewrite (split_app_sep _ _ _ Hscheme), (split_no_sep _ _ Htoken). simpl.
  by destruct token.
Qed.

(** A header that is absent, or holds a single word, carries no token. *)
Lemma bearerToken_single_word (req : Request) :
  (authorization req = None \/
   exists w, authorization req = Some w /\ " "%char ∉ chars w) ->
  bearerToken req = None.
Proof.
  unfold bearerToken. intros [-> | (w & -> & Hw)]; [done|].
  destruct (truthy w); [|done]. by rewrite (split_no_sep _ _ Hw).
Qed.

End HeaderFacts.

Section GuardFacts.
Context `{Jwt}.
Variable jwtSecret : string.

(** X2. [authenticateToken] answers 401 when the [authorization] header is
    absent or holds a single word (no space), without calling [jwt.verify]. *)
Theorem authenticateToken_without_token (req : Request) (now : Z) :
  (authorization req = None \/
   exists w, authorization req = Some w /\ " "%char ∉ JsString.chars w) ->
  authenticateToken jwtSecret req now = Reply (sendStatus 401).
Proof.
  intros Hreq. unfold authenticateToken.
  by rewrite (bearerToken_single_word req Hreq).
Qed.

(** X3. Every route except registration and login answers 401 to a request
    that carries no bearer token: no handler behind it runs. *)
Theorem guarded_routes_require_token (r : route) (req : Request) (now : Z) :
  r <> PostRegister -> r <> PostLogin ->
  bearerToken req = None ->
  runGuards (guards jwtSecret r) req now = Reply (sendStatus 401).
Proof.
  intros Hreg Hlog Hreq.
  destruct r; try done; simpl; unfold authenticateToken; by rewrite Hreq.
Qed.

(** X4. On a privileged route the guards hand the request on exactly when
    its token verifies and carries the [role] claim admin; the request then
    holds the verified claims. *)
Theorem privileged_route_passes_iff_admin
    (r : route) (req req' : Request) (now : Z) :
  privileged r = true ->
  runGuards (guards jwtSecret r) req now = Next req' <->
  exists token claims,
    bearerToken req = Some token /\
    jwt_verify token jwtSecret now = Some claims /\
    claims !! "role" = Some (JStr "admin") /\
    req' = mkRequest (authorization req) (Some claims).
Proof.
  intros Hr. rewrite (privileged_guards jwtSecret r Hr). simpl.
  unfold authenticateToken.
  destruct (bearerToken req) as [token|];
    [|split; [done | by intros (? & ? & ? & _)]].
  destruct (jwt_verify token jwtSecret now) as [claims|] eqn:Hverify;
    [|split; [done | intros (? & ? & [= <-] & ? & _); congruence]].
  unfold checkAdminRole. simpl.
  pose proof (strictNeqStr_false (claims !! "role") "admin") as Hrole.
  destruct (strictNeqStr (claims !! "role") "admin").
  - split; [done|]. intros (? & claims' & [= <-] & Hc & Hadmin & _).
    rewrite Hverify in Hc. injection Hc as <-. by apply Hrole in Hadmin.
  - split.
    + intros [= <-]. exists token, claims. by rewrite <- Hrole.
    + intros (? & claims' & [= <-] & Hc & _ & ->).
      rewrite Hverify in Hc. by injection Hc as <-.
Qed.

(** X5. On a route guarded by [authenticateToken] alone, the [role] claim
    plays no part: the request is handed on exactly when its token
    verifies. *)
Theorem plain_route_passes_iff_verified
    (r : route) (req req' : Request) (now : Z) :
  r <> PostRegister -> r <> PostLogin -> privileged r = false ->
  runGuards (guards jwtSecret r) req now = Next req' <->
  exists token claims,
    bearerToken req = Some token /\
    jwt_verify token jwtSecret now = Some claims /\
    req' = mkRequest (authorization req) (Some claims).
Proof.
  intros Hreg Hlog Hr.
  assert (Hg : guards jwtSecret r = [authenticateToken jwtSecret])
    by by destruct r.
  rewrite Hg. simpl. unfold authenticateToken.
  destruct (bearerToken req) as [token|];
    [|split; [done | by intros (? & ? & ? & _)]].
  destruct (jwt_verify token jwtSecret now) as [claims|] eqn:Hverify;
    [|split; [done | intros (? & ? & [= <-] & ? & _); congruence]].
  split.
  - intros [= <-]. by exists token, claims.
  - intros (? & claims' & [= <-] & Hc & ->).
    rewrite Hverify in Hc. by injection Hc as <-.
Qed.

End GuardFacts.

(** ** Registration *)

Section RegisterFacts.
Context `{Bcrypt} `{Jwt}.
Variable jwtSecret : string.
Import JsString PolicySpec.

Implicit Types (db : gmap string User.t) (user : User.t).

(** A password with no violation leaves every rule unflagged. *)
Lemma validatePassword_nil_flagged (p u : string) (h : list string) :
  Policy.validatePassword p u h = [] -> forall r, flagged r p u h = false.
Proof.
  rewrite validatePassword_flagged. intros Hnil r.
  apply fmap_nil_inv in Hnil.
  destruct (flagged r p u h) eqn:E; [|done].
  apply flagged_broken, flagged_rules_elem in E.
  rewrite Hnil in E. by apply elem_of_nil in E.
Qed.

Lemma validatePassword_nil_truthy (p u : string) (h : list string) :
  Policy.validatePassword p u h = [] -> truthy p = true.
Proof.
  intros Hnil. pose proof (validatePassword_nil_flagged p u h Hnil Length) as Hl.
  destruct p; [discriminate | done].
Qed.

Lemma length_pos_nil {A} (l : list A) : (0 <? length l)%nat = false <-> l = [].
Proof. destruct l; simpl; split; done. Qed.

(** When registration answers 201, and what it stores. *)
Lemma register_created_spec db (username password : option string)
    (salt : string) db' :
  register db username password salt
  = (db', mkResponse 201 (Text "User registered successfully")) <->
  exists u p,
    username = Some u /\ password = Some p /\
    truthy u = true /\
    db !! u = None /\
    Policy.validatePassword p u [] = [] /\
    db' = <[u := User.mk u (bcrypt_hash p 10 salt) [] 0 None]> db.
Proof.
  unfold register, missing. split.
  - destruct username as [u|], password as [p|]; try discriminate.
    destruct (truthy u) eqn:Hu; [|discriminate].
    destruct (truthy p) eqn:Hp; [|discriminate]. simpl.
    destruct (db !! u) eqn:Hdb; [discriminate|].
    destruct (0 <? _)%nat eqn:Hlen; [discriminate|].
    apply length_pos_nil in Hlen. intros [= <-]. by exists u, p.
  - intros (u & p & -> & -> & Hu & Hdb & Hnil & ->).
    rewrite Hu, (validatePassword_nil_truthy p u [] Hnil), Hdb, Hnil. done.
Qed.

(** X6. Registration answers 201 exactly when the username is non-empty and
    free and the password has no policy violation against an empty history;
    the collection then gains the record with the ten-round hash, an empty
    history and zero counters. *)
Theorem register_created_iff db (username password : option string)
    (salt : string) db' :
  register db username password salt
  = (db', mkResponse 201 (Text "User registered successfully")) <->
  exists u p,
    username = Some u /\ password = Some p /\
    truthy u = true /\
    db !! u = None /\
    Policy.validatePassword p u [] = [] /\
    db' = <[u := User.mk u (bcrypt_hash p 10 salt) [] 0 None]> db.
Proof. apply register_created_spec. Qed.

(** X7. Registration never touches a stored account: whatever the request,
    every record of the collection is still there unchanged (a taken name is
    not overwritten). *)
Theorem register_preserves_accounts db (username password : option string)
    (salt u' : string) user :
  db !! u' = Some user ->
  (register db username password salt).1 !! u' = Some user.
Proof.
  intros Hu'. unfold register.
  destruct username as [u|], password as [p|]; try done.
  destruct (_ || _); [done|]. destruct (db !! u) eqn:Hdb; [done|].
  destruct (0 <? _)%nat; [done|]. simpl.
  rewrite lookup_insert_ne; [done|]. congruence.
Qed.

(** X8. After a successful registration, a second registration of the same
    username is answered 400 User already exists, whatever its password, and
    leaves the collection as the first one made it. *)
Theorem register_twice db (u p salt : string) (password' : option string)
    (salt' : string) db' :
  register db (Some u) (Some p) salt
  = (db', mkResponse 201 (Text "User registered successfully")) ->
  missing password' = false ->
  register db' (Some u) password' salt'
  = (db', mkResponse 400 (ErrorObj "User already exists")).
Proof.
  intros Hreg Hp'. apply register_created_spec in Hreg.
  destruct Hreg as (? & ? & [= <-] & [= <-] & Hu & _ & _ & ->).
  destruct password' as [p'|]; [|discriminate].
  unfold register. unfold missing in *. rewrite Hu.
  apply negb_false_iff in Hp'. rewrite Hp'. simpl.
  by rewrite lookup_insert_eq.
Qed.

(** X9. A registered account can log in: after a successful registration, a
    login with the same username and password is answered 200 with a token
    signed for that username and leaves the collection unchanged, provided
    the hasher verifies the hash it produced. *)
Theorem register_then_login db (u p salt : string) db' (now : Z) :
  register db (Some u) (Some p) salt
  = (db', mkResponse 201 (Text "User registered successfully")) ->
  bcrypt_compare p (bcrypt_hash p 10 salt) = true ->
  login jwtSecret db' (Some u) (Some p) now
  = (db',
     mkResponse 200
       (TokenObj (jwt_sign {[ "username" := JStr u ]} jwtSecret 3600 now))).
Proof.
  intros Hreg Hcmp. apply register_created_spec in Hreg.
  destruct Hreg as (? & ? & [= <-] & [= <-] & Hu & _ & Hnil & ->).
  rewrite (login_existing jwtSecret _ u p now
             (User.mk u (bcrypt_hash p 10 salt) [] 0 None) Hu
             (validatePassword_nil_truthy p u [] Hnil)
             (lookup_insert_eq _ _ _)).
  simpl. rewrite Hcmp. simpl. by rewrite insert_insert_eq.
Qed.

End RegisterFacts.

(** ** More on login *)

Section LoginMore.
Context `{Bcrypt} `{Jwt}.
Variable jwtSecret : string.
Import JsString.

Implicit Types (db : gmap string User.t) (user : User.t) (now : Z).

(** X10. A token is only ever issued for a stored identity whose password
    verifies and whose account is not Locked: a 200 answer implies all three,
    carries the token signed for the stored username, and stores the record
    with zeroed counters. *)
Theorem login_ok_sound db (username password : option string) now :
  status (login jwtSecret db username password now).2 = 200 ->
  exists u p user,
    username = Some u /\ password = Some p /\
    db !! u = Some user /\
    bcrypt_compare p (User.password user) = true /\
    ~ Locked user now /\
    login jwtSecret db username password now
    = (<[u := setLockout user 0 None]> db,
       mkResponse 200
         (TokenObj (jwt_sign {[ "username" := JStr (User.username user) ]}
                             jwtSecret 3600 now))).
Proof.
  destruct username as [u|], password as [p|]; try discriminate.
  destruct (truthy u) eqn:Hu;
    [|unfold login, missing; rewrite Hu; discriminate].
  destruct (truthy p) eqn:Hp;
    [|unfold login, missing; rewrite Hu, Hp; discriminate].
  destruct (db !! u) as [user|] eqn:Hdb;
    [|unfold login, missing; rewrite Hu, Hp, Hdb; discriminate].
  rewrite (login_existing jwtSecret db u p now user Hu Hp Hdb).
  destruct (bcrypt_compare p (User.password user)) eqn:Hcmp; [|discriminate].
  destruct (3 <=? User.failedLoginAttempts user) eqn:Hn;
    destruct (now - getTime (User.lastFailedLogin user) <? lockoutTime) eqn:Ht;
    simpl; try discriminate; intros _; exists u, p, user;
    repeat (split; [done|]); (split; [|done]); intros [Hn' Ht'].
  - apply Z.ltb_ge in Ht. rewrite lockoutTime_ms in Ht. lia.
  - apply Z.leb_gt in Hn. lia.
  - apply Z.leb_gt in Hn. lia.
Qed.

(** X11. Login never creates or removes an account and never changes a
    username, a password hash or a password history: at every key these
    fields read the same before and after, whatever the request. *)
Theorem login_preserves_credentials db (username password : option string)
    now (u' : string) :
  let db' := (login jwtSecret db username password now).1 in
  User.username <$> db' !! u' = User.username <$> db !! u' /\
  User.password <$> db' !! u' = User.password <$> db !! u' /\
  User.historyPasswords <$> db' !! u' = User.historyPasswords <$> db !! u'.
Proof.
  intros db'. subst db'.
  destruct (login_store jwtSecret db username password now)
    as [-> | (u & user & Hu & ->)]; [done|].
  rewrite lookup_insert. case_decide as Hk; [|done].
  subst u'. by rewrite Hu.
Qed.

End LoginMore.

(** ** What holds of every reachable collection *)

Section ReachableFacts.
Context `{Bcrypt} `{Jwt}.
Variable jwtSecret : string.
Import JsString.

Implicit Types (db : gmap string User.t) (user : User.t) (now : Z).

Lemma step_change db db' (u : string) :
  step jwtSecret db db' -> change db u (db' !! u).
Proof.
  intros [username password salt | username password now
          | username password salt | username].
  - unfold register. destruct username as [u0|], password as [p|];
      try apply change_none.
    destruct (_ || _); [apply change_none|].
    destruct (db !! u0) eqn:Hdb; [apply change_none|].
    destruct (0 <? _)%nat eqn:Hlen; [apply change_none|]. simpl.
    apply length_pos_nil in Hlen.
    rewrite lookup_insert. case_decide as Hk; [|apply change_none].
    subst u0. by apply change_created.
  - destruct (login_store jwtSecret db username password now)
      as [-> | (u0 & user & Hu & ->)]; [apply change_none|].
    rewrite lookup_insert. case_decide as Hk; [|apply change_none].
    subst u0. by apply change_reset.
  - unfold updateUser. destruct (db !! username) as [user|] eqn:Hdb;
      [|apply change_none].
    destruct password as [p|]; [|apply change_none].
    destruct (truthy p); [|apply change_none].
    destruct (0 <? _)%nat eqn:Hlen; [apply change_none|]. simpl.
    apply length_pos_nil in Hlen.
    rewrite lookup_insert. case_decide as Hk; [|apply change_none].
    subst username. by apply change_rotated.
  - unfold deleteUser. destruct (db !! username) eqn:Hdb;
      [|apply change_none]. simpl.
    rewrite lookup_delete. case_decide; [apply change_removed|apply change_none].
Qed.

(** No reachable record holds a failure. *)
Lemma counters_zero_inv db (u : string) user :
  reachable jwtSecret db -> db !! u = Some user -> countersZero user.
Proof.
  intros Hreach. revert u user.
  induction Hreach as [|db db' _ IH Hstep]; [done|].
  intros u user Hu. pose proof (step_change db db' u Hstep) as Hch.
  rewrite Hu in Hch. inversion Hch as [Heq | | | |]; subst; try done.
  - by apply (IH u).
  - destruct (IH u _ ltac:(eassumption)). done.
Qed.

(** X12. In every reachable collection each record has [failedLoginAttempts]
    0 and [lastFailedLogin] null: no operation ever stores a failure. *)
Theorem reachable_counters_zero db (u : string) user :
  reachable jwtSecret db -> db !! u = Some user -> countersZero user.
Proof. apply counters_zero_inv. Qed.

(** Reachable records sit under their own username. *)
Lemma key_is_username_inv db (u : string) user :
  reachable jwtSecret db -> db !! u = Some user -> User.username user = u.
Proof.
  intros Hreach. revert u user.
  induction Hreach as [|db db' _ IH Hstep]; [done|].
  intros u user Hu. pose proof (step_change db db' u Hstep) as Hch.
  rewrite Hu in Hch. inversion Hch as [Heq | | | |]; subst; try done.
  - by apply (IH u).
  - simpl. by apply (IH u).
  - simpl. by apply (IH u).
Qed.

(** X13. In every reachable collection a record is stored under its own
    username. *)
Theorem reachable_key_is_username db (u : string) user :
  reachable jwtSecret db -> db !! u = Some user -> User.username user = u.
Proof. apply key_is_username_inv. Qed.


(** X15. On a reachable collection the lockout never fires and login writes
    nothing new: for a stored identity the answer is 200 with a token when
    the password verifies and 401 otherwise, and the collection is returned
    as it was. *)
Theorem reachable_login db (u p : string) now user :
  reachable jwtSecret db ->
  truthy u = true -> truthy p = true ->
  db !! u = Some user ->
  login jwtSecret db (Some u) (Some p) now
  = (db,
     if bcrypt_compare p (User.password user)
     then mkResponse 200
            (TokenObj (jwt_sign {[ "username" := JStr u ]} jwtSecret 3600 now))
     else invalidCredentials).
Proof.
  intros Hreach Hu Hp Hdb.
  destruct (counters_zero_inv db u user Hreach Hdb) as [Hn Hl].
  pose proof (key_is_username_inv db u user Hreach Hdb) as Hname.
  rewrite (login_existing jwtSecret db u p now user Hu Hp Hdb), Hn, Hname.
  destruct (bcrypt_compare p (User.password user)); [|done]. simpl.
  assert (Hsame : setLockout user 0 None = user)
    by (destruct user; simpl in *; by subst).
  by rewrite Hsame, insert_id.
Qed.

(** X16. One operation keeps the password history of an account that it does
    not delete: the old history is a prefix of the new one, and the username
    is unchanged. *)
Theorem step_history_append_only db db' (u : string) user user' :
  step jwtSecret db db' ->
  db !! u = Some user -> db' !! u = Some user' ->
  User.historyPasswords user `prefix_of` User.historyPasswords user' /\
  User.username user' = User.username user.
Proof.
  intros Hstep Hu Hu'. pose proof (step_change db db' u Hstep) as Hch.
  rewrite Hu' in Hch.
  inversion Hch as [Heq | | p salt Hnone Hnil | user0 Hsome
                    | user0 p salt Hsome Hnil]; subst.
  - rewrite Hu in Heq. by injection Heq as ->.
  - congruence.
  - rewrite Hu in Hsome. by injection Hsome as ->.
  - rewrite Hu in Hsome. injection Hsome as ->. simpl.
    split; [by apply prefix_app_r | done].
Qed.

End ReachableFacts.

(** ** Password change and deletion *)

Section AccountFacts.
Context `{Bcrypt} `{Jwt}.
Variable jwtSecret : string.
Import JsString.

Implicit Types (db : gmap string User.t) (user : User.t).

Lemma reuse_reported (p u : string) (h : list string) :
  existsb (fun hash => bcrypt_compare p hash) h = true ->
  Policy.msgReuse ∈ Policy.validatePassword p u h.
Proof.
  intros Hex. rewrite validatePassword_flagged.
  apply (list_elem_of_fmap_2 PolicySpec.message _ PolicySpec.NoReuse).
  apply flagged_rules_elem, flagged_broken. exact Hex.
Qed.

(** X17. A password cannot be changed back: after a successful change, a
    further change to any password that verifies against the hash just
    retired is answered 400 with the reuse violation among the reported
    ones, and the collection stays as the first change left it. *)
Theorem updateUser_change_back_rejected
    db (u p salt p' salt' : string) user :
  db !! u = Some user ->
  truthy p = true ->
  Policy.validatePassword p u (User.historyPasswords user) = [] ->
  truthy p' = true ->
  bcrypt_compare p' (User.password user) = true ->
  exists errors,
    Policy.msgReuse ∈ errors /\
    updateUser (updateUser db u (Some p) salt).1 u (Some p') salt'
    = ((updateUser db u (Some p) salt).1,
       mkResponse 400 (ErrorObj (join " " errors))).
Proof.
  intros Hu Hp Hnil Hp' Hcmp.
  assert (Hfirst : (updateUser db u (Some p) salt).1
                   = <[u := rotatePassword user (bcrypt_hash p 10 salt)]> db)
    by (unfold updateUser; by rewrite Hu, Hp, Hnil).
  rewrite Hfirst.
  exists (Policy.validatePassword p' u (User.historyPasswords user ++ [User.password user])).
  assert (Hin : Policy.msgReuse
                ∈ Policy.validatePassword p' u
                    (User.historyPasswords user ++ [User.password user])).
  { apply reuse_reported. rewrite existsb_app. simpl. by rewrite Hcmp, orb_true_r. }
  split; [done|].
  unfold updateUser at 1. rewrite lookup_insert_eq, Hp'. simpl.
  destruct (Policy.validatePassword p' u _); [by apply elem_of_nil in Hin | done].
Qed.

(** X18. A password change reads and writes one record only: every other
    account is left as it was, no account is created or removed, and a
    request for a username that is not stored is answered 404. *)
Theorem updateUser_frame db (u : string) (password : option string)
    (salt : string) :
  (forall u', u' <> u ->
              (updateUser db u password salt).1 !! u' = db !! u') /\
  (is_Some ((updateUser db u password salt).1 !! u) <-> is_Some (db !! u)) /\
  (db !! u = None ->
   updateUser db u password salt
   = (db, mkResponse 404 (ErrorObj "User not found."))).
Proof.
  split; [|split].
  - intros u' Hne. unfold updateUser.
    destruct (db !! u); [|done]. destruct password as [p|]; [|done].
    destruct (truthy p); [|done]. destruct (0 <? _)%nat; [done|]. simpl.
    by rewrite lookup_insert_ne.
  - unfold updateUser. destruct (db !! u) as [user|] eqn:Hu;
      [|simpl; by rewrite Hu].
    destruct password as [p|]; [|simpl; by rewrite Hu].
    destruct (truthy p); [|simpl; by rewrite Hu].
    destruct (0 <? _)%nat; simpl; [by rewrite Hu|].
    by rewrite lookup_insert_eq.
  - intros Hu. unfold updateUser. by rewrite Hu.
Qed.

(** The collection after a deletion, key by key. *)
Lemma deleteUser_lookup db (u : string) :
  (deleteUser db u).1 !! u = None /\
  (forall u', u' <> u -> (deleteUser db u).1 !! u' = db !! u') /\
  (status (deleteUser db u).2 = 200 <-> is_Some (db !! u)) /\
  (db !! u = None ->
   deleteUser db u = (db, mkResponse 404 (ErrorObj "User not found"))).
Proof.
  unfold deleteUser. destruct (db !! u) as [user|] eqn:Hu; simpl.
  - split; [apply lookup_delete_eq|]. split; [|split; [by split|done]].
    intros u' Hne. by rewrite lookup_delete_ne.
  - split; [done|]. split; [done|]. split; [|done].
    split; [done | by intros [? ?]].
Qed.

(** X19. Deleting removes exactly one account: a stored username is answered
    200 and is gone afterwards, an unknown one is answered 404 with the
    collection unchanged, and every other account is left as it was. *)
Theorem deleteUser_removes db (u : string) :
  (deleteUser db u).1 !! u = None /\
  (forall u', u' <> u -> (deleteUser db u).1 !! u' = db !! u') /\
  (status (deleteUser db u).2 = 200 <-> is_Some (db !! u)) /\
  (db !! u = None ->
   deleteUser db u = (db, mkResponse 404 (ErrorObj "User not found"))).
Proof. apply deleteUser_lookup. Qed.

(** X20. Once an account is deleted its credentials are dead and its name
    is free: a login for it is answered 401, and a registration under the
    same name is judged as for a new user, the old password history
    forgotten. *)
Theorem deleteUser_then_login_register db (u p salt : string) (now : Z) :
  truthy u = true -> truthy p = true ->
  login jwtSecret (deleteUser db u).1 (Some u) (Some p) now
  = ((deleteUser db u).1, invalidCredentials) /\
  (Policy.validatePassword p u [] = [] ->
   register (deleteUser db u).1 (Some u) (Some p) salt
   = (<[u := newUser u (bcrypt_hash p 10 salt)]> (deleteUser db u).1,
      mkResponse 201 (Text "User registered successfully"))).
Proof.
  intros Hu Hp.
  destruct (deleteUser_lookup db u) as (Hgone & _).
  split.
  - unfold login, missing. by rewrite Hu, Hp, Hgone.
  - intros Hnil. unfold register, missing. by rewrite Hu, Hp, Hgone, Hnil.
Qed.

End AccountFacts.

(** ** Grading *)

Section GradeFacts.

Implicit Types (questions : list Question.t) (answers : list jsval).











End GradeFacts.

(** ** Admin login *)

Section AdminFacts.
Context `{Bcrypt} `{Jwt}.
Variable jwtSecret : string.

Implicit Types (admins : list Admin.t).

(** The first document with the username hides the later ones. *)
Lemma findAdmin_first (pre rest : list Admin.t) (admin : Admin.t)
    (username : string) :
  (forall a, a ∈ pre -> Admin.username a <> username) ->
  Admin.username admin = username ->
  findAdmin (pre ++ admin :: rest) username = Some admin.
Proof.
  intros Hpre Hname. unfold findAdmin.
  induction pre as [|a pre IH]; simpl.
  - by rewrite (proj2 (String.eqb_eq _ _) Hname).
  - rewrite (proj2 (String.eqb_neq _ _)); [|apply Hpre; by left].
    apply IH. intros a' Ha'. apply Hpre. by right.
Qed.

(** X24. Admin usernames are not unique and only the first document with
    the username is consulted: the answer for a collection is the answer for
    that first document alone, so a later admin of the same name is admitted
    only with the first one's password. *)
Theorem adminLogin_first_document (pre rest : list Admin.t) (admin : Admin.t)
    (username password : string) (now : Z) :
  (forall a, a ∈ pre -> Admin.username a <> username) ->
  Admin.username admin = username ->
  adminLogin jwtSecret (pre ++ admin :: rest) username password now
  = adminLogin jwtSecret [admin] username password now.
Proof.
  intros Hpre Hname. unfold adminLogin.
  rewrite (findAdmin_first pre rest admin username Hpre Hname).
  assert (Hone : findAdmin [admin] username = Some admin).
  { apply (findAdmin_first [] [] admin username); [|done].
    intros a Ha. by apply elem_of_nil in Ha. }
  by rewrite Hone.
Qed.



End AdminFacts.

(** ** More runs on concrete requests *)

Section MoreRuns.
Import JsString.

Lemma aliceDb_registered :
  @register toyBcrypt ∅ (Some "alice") (Some "Abc123!x") "salt"
  = (aliceDb, mkResponse 201 (Text "User registered successfully")).
Proof. reflexivity. Qed.

Lemma aliceDb_reachable : @reachable toyBcrypt toyJwt "secret" aliceDb.
Proof.
  change aliceDb
    with (@register toyBcrypt ∅ (Some "alice") (Some "Abc123!x") "salt").1.
  eapply reachable_step; [apply reachable_empty | apply step_register].
Qed.

Lemma bearerToken_basic_scheme :
  bearerToken (mkRequest (Some "Basic abc") None) = Some "abc".
Proof.
  refine (bearerToken_any_scheme "Basic" "abc" None _ _ _).
  - compute_done.
  - compute_done.
  - discriminate.
Defined.

Lemma authenticateToken_bare_scheme :
  @authenticateToken toyJwt "secret" (mkRequest (Some "Bearer") None) 0
  = Reply (sendStatus 401).
Proof.
  refine (@authenticateToken_without_token toyJwt "secret"
            (mkRequest (Some "Bearer") None) 0 _).
  right. exists "Bearer". split; [reflexivity | compute_done].
Defined.

Lemma getUser_without_header :
  runGuards (@guards toyJwt "secret" GetUser) (mkRequest None None) 0
  = Reply (sendStatus 401).
Proof.
  refine (@guarded_routes_require_token toyJwt "secret" GetUser
            (mkRequest None None) 0 _ _ _).
  - discriminate.
  - discriminate.
  - reflexivity.
Defined.

Lemma postQuestion_with_admin_role :
  runGuards (@guards toyJwt "secret" PostQuestion)
            (mkRequest (Some "Bearer r.admin") None) 0
  = Next (mkRequest (Some "Bearer r.admin")
                    (Some {[ "role" := JStr "admin" ]})).
Proof.
  apply (proj2 (@privileged_route_passes_iff_admin toyJwt "secret" PostQuestion
                  (mkRequest (Some "Bearer r.admin") None) _ 0 eq_refl)).
  exists "r.admin", {[ "role" := JStr "admin" ]}.
  repeat split; reflexivity.
Defined.

Lemma getUser_with_user_token :
  runGuards (@guards toyJwt "secret" GetUser)
            (mkRequest (Some "Bearer n.alice") None) 0
  = Next (mkRequest (Some "Bearer n.alice")
                    (Some {[ "username" := JStr "alice" ]})).
Proof.
  refine (proj2 (@plain_route_passes_iff_verified toyJwt "secret" GetUser
                   (mkRequest (Some "Bearer n.alice") None) _ 0 _ _ _) _).
  - discriminate.
  - discriminate.
  - reflexivity.
  - exists "n.alice", {[ "username" := JStr "alice" ]}.
    repeat split; reflexivity.
Defined.

Lemma register_bob_keeps_alice :
  (@register toyBcrypt aliceDb (Some "bob") (Some "Qwe456#r") "salt").1
    !! "alice" = Some alice.
Proof.
  refine (@register_preserves_accounts toyBcrypt aliceDb
            (Some "bob") (Some "Qwe456#r") "salt" "alice" alice _).
  reflexivity.
Defined.

Lemma register_alice_twice :
  @register toyBcrypt aliceDb (Some "alice") (Some "Qwe456#r") "pepper"
  = (aliceDb, mkResponse 400 (ErrorObj "User already exists")).
Proof.
  refine (@register_twice toyBcrypt ∅ "alice" "Abc123!x" "salt"
            (Some "Qwe456#r") "pepper" aliceDb _ _); reflexivity.
Defined.

Lemma register_alice_then_login :
  @login toyBcrypt toyJwt "secret" aliceDb (Some "alice") (Some "Abc123!x") 5000
  = (aliceDb, mkResponse 200 (TokenObj "n.alice")).
Proof.
  refine (@register_then_login toyBcrypt toyJwt "secret" ∅
            "alice" "Abc123!x" "salt" aliceDb 5000 _ _); reflexivity.
Defined.

Lemma login_alice_ok_sound :
  exists u p user,
    Some "alice" = Some u /\ Some "Abc123!x" = Some p /\
    aliceDb !! u = Some user /\
    @bcrypt_compare toyBcrypt p (User.password user) = true /\
    ~ Locked user 5000 /\
    @login toyBcrypt toyJwt "secret" aliceDb (Some "alice") (Some "Abc123!x") 5000
    = (<[u := setLockout user 0 None]> aliceDb,
       mkResponse 200
         (TokenObj (@jwt_sign toyJwt {[ "username" := JStr (User.username user) ]}
                              "secret" 3600 5000))).
Proof.
  refine (@login_ok_sound toyBcrypt toyJwt "secret" aliceDb
            (Some "alice") (Some "Abc123!x") 5000 _).
  reflexivity.
Defined.

Lemma alice_counters_zero : countersZero alice.
Proof.
  refine (@reachable_counters_zero toyBcrypt toyJwt "secret"
            aliceDb "alice" alice aliceDb_reachable _).
  reflexivity.
Defined.

Lemma alice_key_is_username : User.username alice = "alice".
Proof.
  refine (@reachable_key_is_username toyBcrypt toyJwt "secret"
            aliceDb "alice" alice aliceDb_reachable _).
  reflexivity.
Defined.


Lemma alice_wrong_password_on_reachable :
  @login toyBcrypt toyJwt "secret" aliceDb (Some "alice") (Some "Wrong999!") 5000
  = (aliceDb, invalidCredentials).
Proof.
  refine (@reachable_login toyBcrypt toyJwt "secret" aliceDb
            "alice" "Wrong999!" 5000 alice aliceDb_reachable _ _ _);
    reflexivity.
Defined.

Lemma alice_history_grows :
  User.historyPasswords alice `prefix_of` User.historyPasswords aliceRotated /\
  User.username aliceRotated = User.username alice.
Proof.
  refine (@step_history_append_only toyBcrypt toyJwt "secret" aliceDb
            (@updateUser toyBcrypt aliceDb "alice" (Some "Xyz789?q") "salt").1
            "alice" alice aliceRotated _ _ _).
  - apply step_updateUser.
  - reflexivity.
  - reflexivity.
Defined.

Lemma alice_cannot_change_back :
  exists errors,
    Policy.msgReuse ∈ errors /\
    @updateUser toyBcrypt
      (@updateUser toyBcrypt aliceDb "alice" (Some "Xyz789?q") "salt").1
      "alice" (Some "Abc123!x") "pepper"
    = ((@updateUser toyBcrypt aliceDb "alice" (Some "Xyz789?q") "salt").1,
       mkResponse 400 (ErrorObj (join " " errors))).
Proof.
  refine (@updateUser_change_back_rejected toyBcrypt aliceDb
            "alice" "Xyz789?q" "salt" "Abc123!x" "pepper" alice _ _ _ _ _);
    reflexivity.
Defined.

Lemma alice_deleted_then_login :
  @login toyBcrypt toyJwt "secret" (deleteUser aliceDb "alice").1
    (Some "alice") (Some "Abc123!x") 5000
  = ((deleteUser aliceDb "alice").1, invalidCredentials) /\
  (@Policy.validatePassword toyBcrypt "Abc123!x" "alice" [] = [] ->
   @register toyBcrypt (deleteUser aliceDb "alice").1
     (Some "alice") (Some "Abc123!x") "salt"
   = (<["alice" := newUser "alice" (@bcrypt_hash toyBcrypt "Abc123!x" 10 "salt")]>
        (deleteUser aliceDb "alice").1,
      mkResponse 201 (Text "User registered successfully"))).
Proof.
  refine (@deleteUser_then_login_register toyBcrypt toyJwt "secret" aliceDb
            "alice" "Abc123!x" "salt" 5000 _ _); reflexivity.
Defined.

Lemma second_root_shadowed :
  @adminLogin toyBcrypt toyJwt "secret" [root1; root2] "root" "Second12!" 0
  = mkResponse 401 (MessageObj "Invalid credentials").
Proof.
  transitivity
    (@adminLogin toyBcrypt toyJwt "secret" [root1] "root" "Second12!" 0);
    [|reflexivity].
  refine (@adminLogin_first_document toyBcrypt toyJwt "secret"
            [] [root2] root1 "root" "Second12!" 0 _ _).
  - intros a Ha. by apply elem_of_nil in Ha.
  - reflexivity.
Defined.


(** A string of the right length is graded character by character and
    stored; so is an object that carries its own [length]. *)
Lemma submit_string_answers :
  submit quiz [] (Some "alice") (AnswersString "4P") 7000
  = ([Score.mk "alice" 1 7000],
     mkSubmit 201 (SubmitScore "Score submitted successfully" 1)).
Proof. reflexivity. Qed.

Lemma submit_object_answers :
  submit quiz [] (Some "alice")
    (AnswersObject [("length", JNum 2); ("1", JStr "Paris")]) 7000
  = ([Score.mk "alice" 1 7000],
     mkSubmit 201 (SubmitScore "Score submitted successfully" 1)).
Proof. reflexivity. Qed.

Lemma submit_array_answers :
  submit quiz [] (Some "alice") (AnswersArray [JStr "4"; JStr "Paris"]) 7000
  = ([Score.mk "alice" 2 7000],
     mkSubmit 201 (SubmitScore "Score submitted successfully" 2)).
Proof. reflexivity. Qed.

End MoreRuns.

(** ** The lockout gate *)

Section LockoutFacts.

Implicit Types (user : User.t) (now : Z).

(** X26. The lockout gate refuses exactly the Locked accounts; when it lets
    the request through it hands on the same credentials, and a record whose
    failure timestamp is null is measured from the epoch, so it is let
    through at any clock value of 60000 ms or more. *)
Theorem lockoutCheck_refuses_iff_locked user now :
  (lockoutCheck user now = None <-> Locked user now) /\
  (forall user',
      lockoutCheck user now = Some user' ->
      User.username user' = User.username user /\
      User.password user' = User.password user /\
      User.historyPasswords user' = User.historyPasswords user) /\
  (User.lastFailedLogin user = None -> 60 * 1000 <= now ->
   lockoutCheck user now <> None).
Proof.
  unfold lockoutCheck, Locked. rewrite lockoutTime_ms.
  destruct (3 <=? User.failedLoginAttempts user) eqn:Hn.
  - apply Z.leb_le in Hn.
    destruct (now - getTime (User.lastFailedLogin user) <? 60 * 1000) eqn:Ht.
    + apply Z.ltb_lt in Ht. split; [by split|]. split; [done|].
      intros Hnull Hnow. rewrite Hnull in Ht. simpl in Ht. lia.
    + apply Z.ltb_ge in Ht. split; [split; [done | lia]|].
      split; [by intros ? [= <-] | done].
  - apply Z.leb_gt in Hn. split; [split; [done | lia]|].
    split; [by intros ? [= <-] | done].
Qed.

End LockoutFacts.
